(** * Stock dashboard: fetch, cache and metrics

    A shallow embedding of [streamlit.py]: the cached fetch of a symbol's
    daily bars ([fetch_stock_data] under [st.cache_data(ttl=300)]), the
    metrics computation ([calculate_metrics]) and the part of [main] that
    decides whether a fetch is issued.

    Conventions of the embedding.
    - A Python call that may raise returns a [result]; [try/except] is a
      match on it.
    - A [float64] cell is an [f64]: the IEEE special values are kept, finite
      values are exact rationals (rounding, overflow and the sign of zero are
      abstracted).  Every cell of a frame is a float64 cell: frames with
      columns of another dtype are outside the model.
    - A pandas DataFrame is a [Frame]: an index and an ordered list of named
      columns.  DataFrames are mutable objects, so [calculate_metrics] works
      on a heap of frames addressed by reference.
    - Library calls whose behaviour is not fixed by the program
      ([pd.DataFrame.from_dict] on a dict, [pd.to_datetime], [pd.to_numeric],
      [Series.std]) are fields of the class [Pandas]; the theorems hold for
      every instance.  [Ref.RefPandas] is a small instance used to run the
      program on concrete payloads.
    - [st.cache_data(ttl=300)] is the library's memoisation: the value a call
      returns is stored under its argument together with the clock reading,
      and served again while it is younger than the ttl.  The clock is an
      integer reading handed to each call. *)

From Stdlib Require Import QArith Ascii String.
From stdpp Require Import gmap strings list sorting.

Local Open Scope string_scope.
Local Open Scope Z_scope.
Local Open Scope list_scope.

(** ** Exceptions and fallible calls *)

Inductive exn :=
| KeyError (key : string)
| IndexError
| TypeError
| AttributeError
| ValueError
| LibraryError (text : string).

Inductive result (A : Type) :=
| Ok (a : A)
| Raise (e : exn).
Arguments Ok {A} a.
Arguments Raise {A} e.

Definition bind {A B} (r : result A) (k : A -> result B) : result B :=
  match r with
  | Ok a => k a
  | Raise e => Raise e
  end.

Notation "x <-! c ; k" := (bind c (fun x => k))
  (at level 100, c at next level, right associativity,
   format "x  <-!  c ; '//' k").

Fixpoint mapM {A B} (f : A -> result B) (l : list A) : result (list B) :=
  match l with
  | [] => Ok []
  | a :: l' => b <-! f a; bs <-! mapM f l'; Ok (b :: bs)
  end.

(** ** Numbers: float64 cells *)

Inductive f64 :=
| NaN
| PInf
| NInf
| Fin (q : Q).

Definition isna (x : f64) : bool :=
  match x with NaN => true | _ => false end.

Definition f64_sgn (x : f64) : Z :=
  match x with
  | NaN => 0
  | PInf => 1
  | NInf => -1
  | Fin q => Z.sgn (Qnum q)
  end.

Definition inf_of_sgn (s : Z) : f64 :=
  if s =? 0 then NaN else if 0 <? s then PInf else NInf.

Definition f64_neg (x : f64) : f64 :=
  match x with
  | NaN => NaN
  | PInf => NInf
  | NInf => PInf
  | Fin q => Fin (- q)
  end.

Definition f64_add (x y : f64) : f64 :=
  match x, y with
  | NaN, _ | _, NaN => NaN
  | PInf, NInf | NInf, PInf => NaN
  | PInf, _ | _, PInf => PInf
  | NInf, _ | _, NInf => NInf
  | Fin a, Fin b => Fin (a + b)
  end.

Definition f64_sub (x y : f64) : f64 := f64_add x (f64_neg y).

Definition f64_mul (x y : f64) : f64 :=
  match x, y with
  | NaN, _ | _, NaN => NaN
  | Fin a, Fin b => Fin (a * b)
  | _, _ => inf_of_sgn (f64_sgn x * f64_sgn y)
  end.

(** numpy scalar division: dividing by zero does not raise, it yields NaN
    for 0/0 and an infinity otherwise.  There is one zero here, [Fin 0], and
    it stands for both IEEE zeros: where the divisor is a zero the infinity
    given is the one for +0.0, and for -0.0 the code gives the opposite one.
    The statements below that range over every frame leave open which of the
    two infinities a division by zero yields; the concrete runs divide by
    the zero read from a payload's "0", which is +0.0. *)
Definition f64_div (x y : f64) : f64 :=
  match x, y with
  | NaN, _ | _, NaN => NaN
  | Fin a, Fin b =>
      if Qnum b =? 0 then inf_of_sgn (Z.sgn (Qnum a)) else Fin (a / b)
  | Fin _, _ => Fin 0
  | _, Fin b => if Qnum b =? 0 then x else inf_of_sgn (f64_sgn x * f64_sgn y)
  | _, _ => NaN
  end.

Definition f64_leb (x y : f64) : bool :=
  match x, y with
  | NaN, _ | _, NaN => false
  | NInf, _ | _, PInf => true
  | PInf, _ | _, NInf => false
  | Fin a, Fin b => Qle_bool a b
  end.

Definition of_nat (n : nat) : Q := inject_Z (Z.of_nat n).

(** ** Series reductions (skipna=True, the pandas default) *)

Definition dropna (l : list f64) : list f64 := filter (fun x => isna x = false) l.

Definition f64_sum (l : list f64) : f64 := foldr f64_add (Fin 0) l.

Definition Series_mean (l : list f64) : f64 :=
  let obs := dropna l in
  f64_div (f64_sum obs) (Fin (of_nat (length obs))).

Definition Series_max (l : list f64) : f64 :=
  match dropna l with
  | [] => NaN
  | x :: xs => foldl (fun m y => if f64_leb m y then y else m) x xs
  end.

Definition Series_min (l : list f64) : f64 :=
  match dropna l with
  | [] => NaN
  | x :: xs => foldl (fun m y => if f64_leb y m then y else m) x xs
  end.

(** ** Rolling mean and percentage change *)

Definition lastn {A} (n : nat) (l : list A) : list A := drop (length l - n) l.

Fixpoint finite_values (l : list f64) : list Q :=
  match l with
  | [] => []
  | Fin q :: l' => q :: finite_values l'
  | _ :: l' => finite_values l'
  end.

Definition Qsum (l : list Q) : Q := foldr Qplus 0%Q l.

Definition mean_Q (l : list Q) : Q := (Qsum l / of_nat (length l))%Q.

(** one window of [rolling(window=w)]: [min_periods] defaults to [w];
    infinities count as missing observations *)
Definition window_mean (w : nat) (prefix : list f64) : f64 :=
  let obs := finite_values (lastn w prefix) in
  if (w <=? length obs)%nat then Fin (mean_Q obs) else NaN.

(** [s.rolling(window=w).mean()] *)
Definition rolling_mean (w : nat) (s : list f64) : list f64 :=
  (fun i => window_mean w (take (S i) s)) <$> seq 0 (length s).

(** [s.pct_change()]: each entry relative to the one before; the first
    entry has no predecessor *)
Fixpoint pct_from (prev : f64) (s : list f64) : list f64 :=
  match s with
  | [] => []
  | x :: s' => f64_sub (f64_div x prev) (Fin 1) :: pct_from x s'
  end.

Definition pct_change (s : list f64) : list f64 :=
  match s with
  | [] => []
  | x :: s' => NaN :: pct_from x s'
  end.

(** ** Frames *)

Record Frame (I C : Type) := mkFrame {
  index : list I;
  columns : list (string * list C)
}.
Arguments mkFrame {I C} index columns.
Arguments index {I C} f.
Arguments columns {I C} f.

(** a DataFrame after line 60: timestamps and numeric cells *)
Abbreviation DataFrame := (Frame Z f64).

Section FrameOps.
Context {I C : Type}.

(** [len(df)] *)
Definition len (df : Frame I C) : nat := length (index df).

(** [df.empty]: some axis has length 0 *)
Definition empty (df : Frame I C) : bool :=
  match index df, columns df with
  | [], _ | _, [] => true
  | _, _ => false
  end.

Fixpoint assoc (name : string) (cols : list (string * list C)) : option (list C) :=
  match cols with
  | [] => None
  | (n, c) :: cols' => if String.eqb n name then Some c else assoc name cols'
  end.

(** [df[name]] *)
Definition getcol (df : Frame I C) (name : string) : result (list C) :=
  match assoc name (columns df) with
  | Some c => Ok c
  | None => Raise (KeyError name)
  end.

Fixpoint assign (name : string) (c : list C) (cols : list (string * list C))
  : list (string * list C) :=
  match cols with
  | [] => [(name, c)]
  | (n, c0) :: cols' =>
      if String.eqb n name then (n, c) :: cols' else (n, c0) :: assign name c cols'
  end.

(** [df[name] = values]: replaces the column or appends it; the values
    must have one entry per row *)
Definition setcol (df : Frame I C) (name : string) (c : list C) : result (Frame I C) :=
  if (length c =? len df)%nat
  then Ok (mkFrame (index df) (assign name c (columns df)))
  else Raise ValueError.

(** [s.iloc[-k]] for k >= 1 *)
Definition iloc_neg (s : list C) (k : nat) : result C :=
  match (length s - k)%nat, (k <=? length s)%nat with
  | i, true => match s !! i with Some x => Ok x | None => Raise IndexError end
  | _, false => Raise IndexError
  end.

(** [df.tail(n)] *)
Definition tail (n : nat) (df : Frame I C) : Frame I C :=
  mkFrame (lastn n (index df)) ((fun '(name, c) => (name, lastn n c)) <$> columns df).
End FrameOps.

(** the shape of a fetched series: the five numeric columns, one cell per row *)
Definition series_columns : list string := ["Open"; "High"; "Low"; "Close"; "Volume"].

Definition has_column (df : DataFrame) (name : string) : bool :=
  match assoc name (columns df) with
  | Some c => (length c =? len df)%nat
  | None => false
  end.

Definition is_series (df : DataFrame) : Prop :=
  forallb (has_column df) series_columns = true.

(** ** Library calls left to pandas *)

#[local] Set Warnings "-register-all".
Inductive json :=
| JNull
| JBool (b : bool)
| JNum (x : f64)
| JStr (s : string)
| JArr (items : list json)
| JObj (members : list (string * json)).

(** the frame built by line 53, before its columns are renamed: the row
    labels and the data of each column, in column order *)
Record RawFrame := mkRaw {
  raw_index : list string;
  raw_data : list (list json)
}.

Class Pandas := {
  (** [pd.DataFrame.from_dict(d, orient='index')] for a dict [d] *)
  from_dict_index : list (string * json) -> result RawFrame;
  (** [pd.to_datetime(labels)], as nanoseconds since the epoch *)
  to_datetime : list string -> result (list Z);
  (** [pd.to_numeric(column)] where it gives a float64 column, as it does
      for the provider's decimal strings (an int64 column is read as the
      same numbers).  A column pandas leaves with another dtype (bool for
      JSON booleans, object for integers beyond 64 bits) has no
      representation here: nothing below states how such cells behave in
      [calculate_metrics] or in [main]. *)
  to_numeric : list json -> result (list f64);
  (** [s.std()] *)
  Series_std : list f64 -> f64
}.

(** ** calculate_metrics (lines 68-96) *)

Record Metrics := mkMetrics {
  current_price : f64;
  daily_change : f64;
  daily_change_pct : f64;
  volume : f64;
  high_52w : f64;
  low_52w : f64;
  avg_volume : f64;
  volatility : f64;
  ma_20 : option f64;
  ma_50 : option f64
}.

(** [x if not pd.isna(x) else None] *)
Definition none_if_na (x : f64) : option f64 := if isna x then None else Some x.

(** Python objects: a DataFrame argument is a reference into the heap *)
Abbreviation loc := nat.

Section Metrics.
Context `{Pandas}.

(** lines 83-94: the [metrics] dict *)
Definition build_metrics (latest_price previous_price : f64)
    (vol high low ret ma20 ma50 : list f64) : result Metrics :=
  last_volume <-! iloc_neg vol 1;
  ma20_last <-! iloc_neg ma20 1;
  ma50_last <-! iloc_neg ma50 1;
  Ok {| current_price := latest_price;
        daily_change := f64_sub latest_price previous_price;
        daily_change_pct :=
          f64_mul (f64_div (f64_sub latest_price previous_price) previous_price)
                  (Fin 100);
        volume := last_volume;
        high_52w := Series_max high;
        low_52w := Series_min low;
        avg_volume := Series_mean vol;
        volatility := f64_mul (Series_std ret) (Fin 100);
        ma_20 := none_if_na ma20_last;
        ma_50 := none_if_na ma50_last |}.

(** lines 73-96 on the frame a reference points to: the metrics and the
    frame as the statements on lines 77, 78 and 81 leave it *)
Definition calculate_metrics_body (df : DataFrame) : result (Metrics * DataFrame) :=
  close <-! getcol df "Close";
  latest_price <-! iloc_neg close 1;
  previous_price <-! (if (1 <? len df)%nat then iloc_neg close 2 else Ok latest_price);
  close <-! getcol df "Close";
  df <-! setcol df "MA_20" (rolling_mean 20 close);
  close <-! getcol df "Close";
  df <-! setcol df "MA_50" (rolling_mean 50 close);
  close <-! getcol df "Close";
  df <-! setcol df "Daily_Return" (pct_change close);
  vol <-! getcol df "Volume";
  high <-! getcol df "High";
  low <-! getcol df "Low";
  ret <-! getcol df "Daily_Return";
  ma20 <-! getcol df "MA_20";
  ma50 <-! getcol df "MA_50";
  metrics <-! build_metrics latest_price previous_price vol high low ret ma20 ma50;
  Ok (metrics, df).


(** what [calculate_metrics] returns: [{}] or the pair [metrics, df] *)
Inductive cm_return :=
| EmptyDict
| MetricsAndFrame (metrics : Metrics) (df : loc).

(** [calculate_metrics(df)]: [df] is [None] or a reference; the frame it
    points to is updated in place *)
Definition calculate_metrics (df : option loc) (h : gmap loc DataFrame)
  : result (cm_return * gmap loc DataFrame) :=
  match df with
  | None => Ok (EmptyDict, h)
  | Some l =>
      match h !! l with
      | None => Raise (LibraryError "dangling reference")
      | Some f =>
          if empty f then Ok (EmptyDict, h)
          else
            r <-! calculate_metrics_body f;
            Ok (MetricsAndFrame r.1 l, <[l := r.2]> h)
      end
  end.
End Metrics.

(** ** The provider's reply and Python's operators on decoded JSON

    A [JObj] holds the items of a Python dict in insertion order; its keys
    are distinct ([json.loads] keeps the last of repeated members). *)

Record request := mkRequest {
  req_symbol : string;
  req_apikey : option string
}.

Inductive http_result :=
| transport_failure (e : exn)      (* [requests.get] raises *)
| response (body : result json).   (* [response.json()] returns or raises *)

(** the calls made on [st] inside [fetch_stock_data] *)
Inductive st_call :=
| st_error_provider (symbol : string) (detail : json)   (* line 39 *)
| st_warning_rate_limit                                 (* line 43 *)
| st_error_no_data (symbol : string)                    (* line 49 *)
| st_error_exception (symbol : string) (e : exn).       (* line 65 *)

Definition members_lookup (key : string) (ms : list (string * json)) : option json :=
  snd <$> find (fun m => String.eqb m.1 key) ms.

Definition is_str (key : string) (j : json) : bool :=
  match j with JStr s => String.eqb s key | _ => false end.

(** [key in data] *)
Definition contains (key : string) (data : json) : result bool :=
  match data with
  | JObj ms => Ok (bool_decide (is_Some (members_lookup key ms)))
  | JArr items => Ok (existsb (is_str key) items)
  | JStr s => Ok (bool_decide (is_Some (String.index 0 key s)))
  | _ => Raise TypeError
  end.

(** [data[key]] for a string key *)
Definition subscript (data : json) (key : string) : result json :=
  match data with
  | JObj ms =>
      match members_lookup key ms with
      | Some v => Ok v
      | None => Raise (KeyError key)
      end
  | _ => Raise TypeError
  end.

Definition default_to {A} (d : A) (o : option A) : A :=
  match o with
  | Some v => v
  | None => d
  end.

(** [data.get(key, default)] *)
Definition get_or (data : json) (key : string) (default : json) : result json :=
  match data with
  | JObj ms => Ok (default_to default (members_lookup key ms))
  | _ => Raise AttributeError
  end.

(** Python truth value of a decoded JSON value ([not x] is its negation) *)
Definition truthy (j : json) : bool :=
  match j with
  | JNull => false
  | JBool b => b
  | JNum (Fin q) => negb (Qnum q =? 0)
  | JNum _ => true
  | JStr s => negb (String.eqb s "")
  | JArr items => negb (bool_decide (items = []))
  | JObj ms => negb (bool_decide (ms = []))
  end.

(** ** The frame pipeline of lines 53-60 *)

(** line 54, [df.columns = [...]]: the frame must have exactly five columns *)
Definition set_columns (raw : RawFrame) : result (Frame string json) :=
  if (length (raw_data raw) =? length series_columns)%nat
  then Ok (mkFrame (raw_index raw) (zip series_columns (raw_data raw)))
  else Raise ValueError.

(** [df.index = labels]: one label per row *)
Definition set_index {I J C} (df : Frame I C) (labels : list J) : result (Frame J C) :=
  if (length labels =? len df)%nat
  then Ok (mkFrame labels (columns df))
  else Raise ValueError.

(** [df.sort_index()]: rows are reordered by ascending label.  The order is
    obtained by inserting each (label, position) pair into a sorted list;
    rows with equal labels keep their relative order. *)
Fixpoint insert_by_key (x : Z * nat) (l : list (Z * nat)) : list (Z * nat) :=
  match l with
  | [] => [x]
  | y :: l' => if x.1 <=? y.1 then x :: y :: l' else y :: insert_by_key x l'
  end.

Definition sort_by_key (l : list (Z * nat)) : list (Z * nat) :=
  foldr insert_by_key [] l.

Definition take_rows {C} (rows : list nat) (c : list C) : list C :=
  omap (fun i => c !! i) rows.

Definition sort_index {C} (df : Frame Z C) : Frame Z C :=
  let order := sort_by_key (zip (index df) (seq 0 (len df))) in
  mkFrame (order.*1) ((fun col => (col.1, take_rows (order.*2) col.2)) <$> columns df).

Definition time_series_key : string := "Time Series (Daily)".

Section Fetch.
Context `{Pandas}.

(** line 53: only a dict has [.values()]; any other value raises *)
Definition from_dict (time_series : json) : result RawFrame :=
  match time_series with
  | JObj ms => from_dict_index ms
  | JNull | JBool _ | JNum _ => Raise TypeError
  | JStr _ | JArr _ => Raise AttributeError
  end.

(** lines 59-60: every column is replaced by its numeric conversion *)
Definition convert_column (df : Frame Z json) (col : string * list json)
  : result (string * list f64) :=
  values <-! to_numeric col.2;
  if (length values =? len df)%nat then Ok (col.1, values) else Raise ValueError.

Definition numeric_columns (df : Frame Z json) : result DataFrame :=
  cols <-! mapM (convert_column df) (columns df);
  Ok (mkFrame (index df) cols).

(** lines 36-62, the body of the [try]: a value to return together with
    the calls made on [st], or an exception *)
Definition fetch_try (symbol : string) (reply : http_result)
  : result (option DataFrame * list st_call) :=
  match reply with
  | transport_failure e => Raise e
  | response body =>
      data <-! body;
      has_error <-! contains "Error Message" data;
      if has_error : bool then
        (detail <-! subscript data "Error Message";
         Ok (None, [st_error_provider symbol detail]))
      else
        (has_note <-! contains "Note" data;
         if has_note : bool then Ok (None, [st_warning_rate_limit])
         else
           (time_series <-! get_or data time_series_key (JObj []);
            if negb (truthy time_series) then Ok (None, [st_error_no_data symbol])
            else
              (raw <-! from_dict time_series;
               df <-! set_columns raw;
               stamps <-! to_datetime (index df);
               df <-! set_index df stamps;
               df <-! numeric_columns (sort_index df);
               Ok (Some df, []))))
  end.

(** lines 26-66 given the provider's reply: [except Exception] turns any
    exception into [st.error] and [None] *)
Definition fetch_stock_data_body (symbol : string) (reply : http_result)
  : option DataFrame * list st_call :=
  match fetch_try symbol reply with
  | Ok r => r
  | Raise e => (None, [st_error_exception symbol e])
  end.
End Fetch.

(** ** The cache of [st.cache_data(ttl=300)] and the network *)

(** the provider: the reply to the n-th outbound request *)
Definition network := nat -> request -> http_result.

Definition ttl : Z := 300.

(** a memoised return value and the clock reading when it was stored *)
Record entry := mkEntry {
  stored_at : Z;
  value : option DataFrame
}.

Record world := mkWorld {
  cache : gmap string entry;
  sent : list request
}.

Definition fresh (now : Z) (e : entry) : bool := now <? stored_at e + ttl.

Section Program.
Context `{Pandas} (net : network) (API_KEY : option string).

(** [fetch_stock_data(symbol)] without the decorator: one request is sent,
    whatever comes back *)
Definition fetch_stock_data (symbol : string) (log : list request)
  : option DataFrame * list st_call * list request :=
  let req := mkRequest symbol API_KEY in
  (fetch_stock_data_body symbol (net (length log) req), (log ++ [req])%list).

(** the decorated function: a stored value younger than [ttl] is returned
    as it is; otherwise the function runs and whatever it returns, [None]
    included, is stored under the symbol *)
Definition cached_fetch_stock_data (now : Z) (symbol : string) (w : world)
  : option DataFrame * world :=
  let miss :=
    let r := fetch_stock_data symbol (sent w) in
    (r.1.1, mkWorld (<[symbol := mkEntry now r.1.1]> (cache w)) r.2) in
  match cache w !! symbol with
  | Some e => if fresh now e then (value e, w) else miss
  | None => miss
  end.

(** [st.cache_data.clear()] *)
Definition cache_clear (w : world) : world := mkWorld ∅ (sent w).
End Program.

(** ** main (lines 160-287): one run of the script *)

Inductive time_period := Days30 | Days60 | Days90 | AllAvailable.

(** [int(time_period.split()[0])] when the period is not 'All Available' *)
Definition days (p : time_period) : option nat :=
  match p with
  | Days30 => Some 30%nat
  | Days60 => Some 60%nat
  | Days90 => Some 90%nat
  | AllAvailable => None
  end.

(** the state of the sidebar widgets in this run *)
Record sidebar := mkSidebar {
  selected : string;          (* the selectbox, one of the popular stocks *)
  custom_text : string;       (* the text input *)
  period : time_period;
  refresh_clicked : bool
}.

Inductive outcome :=
| Rerun                                                   (* line 196 *)
| Stopped                                                 (* line 202 *)
| Rendered (symbol : string) (metrics : Metrics) (df : DataFrame)
| Unable (symbol : string)                                (* line 287 *)
| NoSymbol
| Uncaught (e : exn).

Definition upper_ascii (c : ascii) : ascii :=
  let n := nat_of_ascii c in
  if ((97 <=? n) && (n <=? 122))%nat then ascii_of_nat (n - 32) else c.

(** [str.upper()] on ASCII text: a string is its bytes, and the bytes a-z
    are the only ones mapped.  On text with letters outside ASCII this is
    not what Python does (their upper case differs, and may be longer); such
    text is outside the model, and a statement that depends on what [upper]
    returns asks for [is_ascii]. *)
Fixpoint upper (s : string) : string :=
  match s with
  | EmptyString => EmptyString
  | String c s' => String (upper_ascii c) (upper s')
  end.

Fixpoint is_ascii (s : string) : bool :=
  match s with
  | EmptyString => true
  | String c s' => (nat_of_ascii c <? 128)%nat && is_ascii s'
  end.

Definition placeholder : string := "your_api_key_here".

Section Main.
Context `{Pandas} (net : network) (API_KEY : option string).

(** lines 212-284 once a frame came back: window, metrics, rendering.
    The windowed frame is an object of its own, at address 0 of the local
    heap; [calculate_metrics] updates it there and the rest of the run
    (volume chart, table, CSV export) reads that same object. *)
Definition render (symbol : string) (p : time_period) (fetched : DataFrame) : outcome :=
  let df := match days p with Some n => tail n fetched | None => fetched end in
  match calculate_metrics (Some 0%nat) {[ 0%nat := df ]} with
  | Raise e => Uncaught e
  | Ok (EmptyDict, _) => Uncaught ValueError     (* [{}] cannot be unpacked in two *)
  | Ok (MetricsAndFrame m l, h) =>
      match h !! l with
      | Some df' => Rendered symbol m df'
      | None => Uncaught (LibraryError "dangling reference")
      end
  end.

Definition main (now : Z) (ui : sidebar) (w : world) : outcome * world :=
  let custom_symbol := upper (custom_text ui) in
  let symbol := if String.eqb custom_symbol "" then selected ui else custom_symbol in
  if refresh_clicked ui then (Rerun, cache_clear w)
  else if bool_decide (API_KEY = Some placeholder) then (Stopped, w)
  else if String.eqb symbol "" then (NoSymbol, w)
  else
    let r := cached_fetch_stock_data net API_KEY now symbol w in
    match r.1 with
    | Some df => if empty df then (Unable symbol, r.2) else (render symbol (period ui) df, r.2)
    | None => (Unable symbol, r.2)
    end.
End Main.

(** ** A reference instance of the library calls

    Enough of pandas to run the program on payloads in the provider's
    format: records that are objects of string-encoded decimals, keyed by
    "YYYY-MM-DD" dates. *)
Module Ref.

Definition digit (c : ascii) : option Z :=
  let n := nat_of_ascii c in
  if ((48 <=? n) && (n <=? 57))%nat then Some (Z.of_nat n - 48) else None.

Fixpoint digits_from (acc : Z) (s : string) : option Z :=
  match s with
  | EmptyString => Some acc
  | String c s' => d ← digit c; digits_from (10 * acc + d) s'
  end.

Definition parse_nat (s : string) : option Z :=
  if String.eqb s "" then None else digits_from 0 s.

Definition parse_unsigned (s : string) : option Q :=
  match String.index 0 "." s with
  | None => n ← parse_nat s; Some (inject_Z n)
  | Some i =>
      let frac := String.substring (S i) (String.length s - S i) s in
      n ← parse_nat (String.substring 0 i s);
      f ← digits_from 0 frac;
      Some (Qred (inject_Z n + Qmake f (Z.to_pos (10 ^ Z.of_nat (String.length frac)))))
  end.

Definition parse_decimal (s : string) : option Q :=
  match s with
  | String "-" s' => Qopp <$> parse_unsigned s'
  | _ => parse_unsigned s
  end.

Definition numeric_cell (j : json) : result f64 :=
  match j with
  | JNum x => Ok x
  | JStr s =>
      match parse_decimal s with
      | Some q => Ok (Fin q)
      | None => Raise ValueError
      end
  | _ => Raise TypeError
  end.

(** days since 1970-01-01 of a proleptic Gregorian date *)
Definition days_from_civil (y m d : Z) : Z :=
  let y' := if m <=? 2 then y - 1 else y in
  let era := y' / 400 in
  let yoe := y' - era * 400 in
  let doy := (153 * (if 2 <? m then m - 3 else m + 9) + 2) / 5 + d - 1 in
  era * 146097 + (yoe * 365 + yoe / 4 - yoe / 100 + doy) - 719468.

Definition is_leap (y : Z) : bool :=
  ((y mod 4 =? 0) && negb (y mod 100 =? 0)) || (y mod 400 =? 0).

Definition days_in_month (y m : Z) : Z :=
  if m =? 2 then (if is_leap y then 29 else 28)
  else if (m =? 4) || (m =? 6) || (m =? 9) || (m =? 11) then 30 else 31.

Definition ns_per_day : Z := 86400 * 1000000000.

(** "YYYY-MM-DD" to nanoseconds since the epoch *)
Definition parse_date (s : string) : result Z :=
  match parse_nat (String.substring 0 4 s), String.get 4 s,
        parse_nat (String.substring 5 2 s), String.get 7 s,
        parse_nat (String.substring 8 2 s) with
  | Some y, Some "-"%char, Some m, Some "-"%char, Some d =>
      if (String.length s =? 10)%nat && (1 <=? m) && (m <=? 12)
         && (1 <=? d) && (d <=? days_in_month y m)
      then Ok (days_from_civil y m d * ns_per_day)
      else Raise ValueError
  | _, _, _, _, _ => Raise ValueError
  end.

Definition record_members (j : json) : result (list (string * json)) :=
  match j with
  | JObj ms => Ok ms
  | _ => Raise AttributeError
  end.

(** the column labels: the keys of the records, in order of first
    appearance *)
Definition labels (records : list (list (string * json))) : list string :=
  foldl (fun acc ms =>
           foldl (fun acc k => if bool_decide (k ∈ acc) then acc else (acc ++ [k])%list)
                 acc (ms.*1))
        [] records.

Definition cell (label : string) (ms : list (string * json)) : json :=
  match members_lookup label ms with
  | Some v => v
  | None => JNum NaN
  end.

Definition frame_of_records (d : list (string * json)) : result RawFrame :=
  records <-! mapM record_members (d.*2);
  Ok (mkRaw (d.*1) ((fun label => cell label <$> records) <$> labels records)).

(** sample standard deviation (ddof=1) of the finite observations, to six
    decimals *)
Definition std (s : list f64) : f64 :=
  let obs := finite_values s in
  if (length obs <? 2)%nat || negb (length obs =? length (dropna s))%nat then NaN
  else
    let mu := mean_Q obs in
    let var := (Qsum ((fun x => (x - mu) * (x - mu)) <$> obs)
                / of_nat (length obs - 1))%Q in
    Fin (Qred (Qmake (Z.sqrt (Qnum var * 10 ^ 12 / Z.pos (Qden var))) (10 ^ 6))).

#[global] Instance RefPandas : Pandas := {|
  from_dict_index := frame_of_records;
  to_datetime := mapM parse_date;
  to_numeric := mapM numeric_cell;
  Series_std := std
|}.
End Ref.

(** ** The charts (lines 98-158)

    A figure is the list of its traces with the title and the height of its
    layout; colours, line styles and axis titles are left out. *)

Inductive trace_kind := Scatter | Bar.

Record trace := mkTrace {
  trace_kind_of : trace_kind;
  trace_name : string;
  trace_x : list Z;
  trace_y : list f64
}.

Record figure := mkFigure {
  traces : list trace;
  title : string;
  height : Z
}.

(** [name in df.columns] *)
Definition in_columns (name : string) (df : DataFrame) : bool :=
  bool_decide (is_Some (assoc name (columns df))).

(** [s.isna().all()] *)
Definition all_na (s : list f64) : bool := forallb isna s.

(** [create_price_chart(df, symbol)] *)
Definition create_price_chart (df : DataFrame) (symbol : string) : result figure :=
  close <-! getcol df "Close";
  let fig := [mkTrace Scatter "Close Price" (index df) close] in
  fig <-! (if in_columns "MA_20" df then
             (ma <-! getcol df "MA_20";
              if negb (all_na ma)
              then (y <-! getcol df "MA_20";
                    Ok (fig ++ [mkTrace Scatter "20-Day MA" (index df) y]))
              else Ok fig)
           else Ok fig);
  fig <-! (if in_columns "MA_50" df then
             (ma <-! getcol df "MA_50";
              if negb (all_na ma)
              then (y <-! getcol df "MA_50";
                    Ok (fig ++ [mkTrace Scatter "50-Day MA" (index df) y]))
              else Ok fig)
           else Ok fig);
  Ok (mkFigure fig (symbol ++ " Stock Price")%string 400).

(** [create_volume_chart(df, symbol)] *)
Definition create_volume_chart (df : DataFrame) (symbol : string) : result figure :=
  vol <-! getcol df "Volume";
  Ok (mkFigure [mkTrace Bar "Volume" (index df) vol]
               (symbol ++ " Trading Volume")%string 300).

(** lines 254 and 258, [if metrics['ma_20']:]: the truth value of an optional
    number ([None] and zero are false) *)
Definition tile_shown (x : option f64) : bool :=
  match x with
  | None => false
  | Some (Fin q) => negb (Qnum q =? 0)
  | Some _ => true
  end.

(** * Vocabulary of the statements *)

(** the frame after lines 77, 78 and 81 *)
Definition with_indicators (f : DataFrame) (close : list f64) : DataFrame :=
  mkFrame (index f)
    (assign "Daily_Return" (pct_change close)
       (assign "MA_50" (rolling_mean 50 close)
          (assign "MA_20" (rolling_mean 20 close) (columns f)))).

(** the close before the last one, or the last one when there is only one *)
Definition previous_close (close : list f64) : option f64 :=
  if (1 <? length close)%nat then close !! (length close - 2)%nat else last close.

(** what [metrics.get(field)] gives on the value returned by
    [calculate_metrics]: [None] when the key is missing or holds [None] *)
Definition reported (field : Metrics -> option f64) (ret : cm_return) : option f64 :=
  match ret with
  | EmptyDict => None
  | MetricsAndFrame m _ => field m
  end.

(** the arguments [calculate_metrics] is called with: [None], or a reference
    to a series *)
Definition valid_argument (df : option loc) (h : gmap loc DataFrame) : Prop :=
  match df with
  | None => True
  | Some l =>
      match h !! l with
      | Some f => is_series f
      | None => False
      end
  end.

Definition derived_columns : list string := ["MA_20"; "MA_50"; "Daily_Return"].

(** a series with the given closes on consecutive days; the other columns
    repeat the closes *)
Definition series_of_closes (close : list Q) : DataFrame :=
  let c := Fin <$> close in
  mkFrame (Z.of_nat <$> seq 0 (length close))
          [("Open", c); ("High", c); ("Low", c); ("Close", c); ("Volume", c)].

(** the ways a fetch fails, as the branches of [fetch_stock_data] tell them
    apart *)
Inductive failure :=
| provider_error (detail : json)   (* an "Error Message" member *)
| rate_limit                       (* a "Note" member *)
| no_data                          (* no time series, or an empty one *)
| exception (e : exn).             (* anything raised inside the [try] *)

(** the call on [st] each failure makes *)
Definition st_call_of (symbol : string) (k : failure) : st_call :=
  match k with
  | provider_error detail => st_error_provider symbol detail
  | rate_limit => st_warning_rate_limit
  | no_data => st_error_no_data symbol
  | exception e => st_error_exception symbol e
  end.

(** the failure values the specification names *)
Inductive spec_FetchError :=
| NetworkError
| MalformedResponse
| InvalidSymbol
| RateLimited
| EmptyResult.

Section FetchVocabulary.
Context `{Pandas}.

(** a reply on which the fetch fails, with the kind of the failure *)
Inductive fails (symbol : string) : http_result -> failure -> Prop :=
| fails_transport e :
    fails symbol (transport_failure e) (exception e)
| fails_provider data detail :
    contains "Error Message" data = Ok true ->
    subscript data "Error Message" = Ok detail ->
    fails symbol (response (Ok data)) (provider_error detail)
| fails_rate_limit data :
    contains "Error Message" data = Ok false ->
    contains "Note" data = Ok true ->
    fails symbol (response (Ok data)) rate_limit
| fails_no_data data time_series :
    contains "Error Message" data = Ok false ->
    contains "Note" data = Ok false ->
    get_or data time_series_key (JObj []) = Ok time_series ->
    truthy time_series = false ->
    fails symbol (response (Ok data)) no_data
| fails_exception reply e :
    fetch_try symbol reply = Raise e ->
    fails symbol reply (exception e).

(** the timestamps the row labels of the payload parse to, in the order
    the provider delivered them *)
Definition parsed_index (reply : http_result) : result (list Z) :=
  match reply with
  | transport_failure e => Raise e
  | response body =>
      data <-! body;
      time_series <-! get_or data time_series_key (JObj []);
      raw <-! from_dict time_series;
      to_datetime (raw_index raw)
  end.

(** the records of the payload are keyed by pairwise distinct dates *)
Definition distinct_dates (reply : http_result) : Prop :=
  match parsed_index reply with
  | Ok stamps => NoDup stamps
  | Raise _ => True
  end.

Context (net : network) (API_KEY : option string).

(** a sequence of cached calls, each at its own clock reading *)
Fixpoint run_calls (calls : list (Z * string)) (w : world) : world :=
  match calls with
  | [] => w
  | c :: calls' => run_calls calls' (cached_fetch_stock_data net API_KEY c.1 c.2 w).2
  end.
End FetchVocabulary.

(** no stored value for the symbol that is still fresh *)
Definition stale (now : Z) (symbol : string) (w : world) : Prop :=
  match cache w !! symbol with
  | Some e => fresh now e = false
  | None => True
  end.

Definition requests_for (symbol : string) (log : list request) : list request :=
  filter (fun r => req_symbol r = symbol) log.

(** payloads in the provider's format *)
Definition bar (o h l c v : string) : json :=
  JObj [("1. open", JStr o); ("2. high", JStr h); ("3. low", JStr l);
        ("4. close", JStr c); ("5. volume", JStr v)].

Definition sample_payload : json :=
  JObj [("Meta Data", JObj [("2. Symbol", JStr "AAPL")]);
        (time_series_key,
         JObj [("2024-01-05", bar "10.50" "11.00" "10.00" "10.75" "1000");
               ("2024-01-03", bar "9.50" "10.00" "9.00" "9.75" "2000");
               ("2024-01-04", bar "9.80" "10.60" "9.70" "10.40" "3000")])].

Definition error_payload : json :=
  JObj [("Error Message", JStr "Invalid API call.")].

Definition note_payload : json :=
  JObj [("Note", JStr "Thank you for using Alpha Vantage!")].

(** concrete runs *)
Definition one_bar : DataFrame := series_of_closes [100%Q].


Definition twenty_bars : DataFrame := series_of_closes (replicate 20 100%Q).

Definition demo_key : option string := Some "demo".

Definition failing_net : network :=
  fun _ _ => transport_failure (LibraryError "connection refused").

Definition sample_net : network := fun _ _ => response (Ok sample_payload).

(** a cache that holds a snapshot for AAPL fetched at time 0 *)
Definition warm_world : world :=
  mkWorld {[ "AAPL" := mkEntry 0 (Some one_bar) ]} [mkRequest "AAPL" demo_key].

Definition cold_world : world := mkWorld ∅ [].

(** the frame fetched from [sample_payload] *)
Definition sample_frame : DataFrame :=
  Eval vm_compute in
    default_to (mkFrame [] [])
      (fetch_stock_data_body "AAPL" (response (Ok sample_payload))).1.

(** the order [sort_index] sorts the (label, position) pairs by *)
Definition key_le (a b : Z * nat) : Prop := a.1 ≤ b.1.

(** every column has one cell per row *)
Definition well_formed {I C} (df : Frame I C) : Prop :=
  forallb (fun col => (length col.2 =? len df)%nat) (columns df) = true.

(** the shape of a frame as [fetch_stock_data] returns it: exactly the five
    series columns, in order, one cell per row *)
Definition series_shape (df : DataFrame) : Prop :=
  (columns df).*1 = series_columns /\ well_formed df.

(** every frame the cache holds has the shape of a fetched series *)
Definition cache_ok (w : world) : Prop :=
  forall symbol e f, cache w !! symbol = Some e -> value e = Some f -> series_shape f.

(** the cells of row [j], column by column *)
Definition row_cells {C} (cols : list (string * list C)) (j : nat) : list (option C) :=
  (fun col => col.2 !! j) <$> cols.

(** the rows of a frame: each label with its cells *)
Definition rows {I C} (df : Frame I C) : list (I * list (option C)) :=
  (fun p => (p.1, row_cells (columns df) p.2)) <$> zip (index df) (seq 0 (len df)).

(** the symbol a run of [main] works on *)
Definition chosen_symbol (ui : sidebar) : string :=
  if String.eqb (upper (custom_text ui)) "" then selected ui else upper (custom_text ui).

(** a series with its own highs, lows, closes and volumes *)
Definition series_of (high low close vol : list Q) : DataFrame :=
  mkFrame (Z.of_nat <$> seq 0 (length close))
          [("Open", Fin <$> close); ("High", Fin <$> high); ("Low", Fin <$> low);
           ("Close", Fin <$> close); ("Volume", Fin <$> vol)].

(** more concrete data *)
Definition unsorted_frame : DataFrame :=
  mkFrame [3; 1; 2] [("Close", [Fin 30; Fin 10; Fin 20]); ("Volume", [Fin 3; Fin 1; Fin 2])].

Definition three_bars : DataFrame :=
  series_of [12; 15; 11]%Q [9; 10; 8]%Q [10; 12; 9]%Q [1000; 3000; 2000]%Q.

(** [sample_payload] with its records in another order *)
Definition reordered_payload : json :=
  JObj [(time_series_key,
         JObj [("2024-01-03", bar "9.50" "10.00" "9.00" "9.75" "2000");
               ("2024-01-04", bar "9.80" "10.60" "9.70" "10.40" "3000");
               ("2024-01-05", bar "10.50" "11.00" "10.00" "10.75" "1000")])].

(** records with four fields only *)
Definition short_records : list (string * json) :=
  [("2024-01-03", JObj [("1. open", JStr "1"); ("2. high", JStr "2");
                        ("3. low", JStr "1"); ("4. close", JStr "2")])].

Definition default_sidebar : sidebar := mkSidebar "AAPL" "" Days30 false.

(** * Properties *)

(** ** Frames and columns *)

Section FrameFacts.
Context {C : Type}.
Implicit Types (c : list C) (cols : list (string * list C)).

Lemma assoc_assign_eq name c cols : assoc name (assign name c cols) = Some c.
Proof.
  induction cols as [|[n c0] cols IH]; simpl.
  - by rewrite String.eqb_refl.
  - destruct (String.eqb n name) eqn:E; simpl; by rewrite E.
Qed.

Lemma assoc_assign_ne name other c cols :
  other ≠ name → assoc other (assign name c cols) = assoc other cols.
Proof.
  intros Hne. induction cols as [|[n c0] cols IH]; simpl.
  - destruct (String.eqb name other) eqn:E; [|done].
    apply String.eqb_eq in E. congruence.
  - destruct (String.eqb n name) eqn:E; simpl; [|by rewrite IH].
    apply String.eqb_eq in E. subst n.
    destruct (String.eqb name other) eqn:E'; [|done].
    apply String.eqb_eq in E'. congruence.
Qed.

Lemma iloc_neg_lookup (s : list C) k x :
  (0 < k ≤ length s)%nat → s !! (length s - k)%nat = Some x → iloc_neg s k = Ok x.
Proof.
  intros [_ Hk] Hx. unfold iloc_neg. rewrite Hx.
  by destruct (Nat.leb_spec k (length s)); [|lia].
Qed.

Lemma iloc_neg_total (s : list C) k :
  (0 < k ≤ length s)%nat → ∃ x, iloc_neg s k = Ok x.
Proof.
  intros Hk. destruct (lookup_lt_is_Some_2 s (length s - k)) as [x Hx]; [lia|].
  exists x. by apply iloc_neg_lookup.
Qed.
End FrameFacts.

Lemma length_rolling_mean w s : length (rolling_mean w s) = length s.
Proof. unfold rolling_mean. by rewrite length_fmap, length_seq. Qed.

Lemma length_pct_from prev s : length (pct_from prev s) = length s.
Proof. revert prev. induction s as [|x s IH]; intros prev; simpl; [done|by rewrite IH]. Qed.

Lemma length_pct_change s : length (pct_change s) = length s.
Proof. destruct s; simpl; [done|by rewrite length_pct_from]. Qed.

(** the last entry of a rolling mean is the mean of the window that ends at
    the last row *)
Lemma rolling_mean_last w s :
  s ≠ [] → iloc_neg (rolling_mean w s) 1 = Ok (window_mean w s).
Proof.
  intros Hs. assert (0 < length s)%nat by (destruct s; simpl; [done|lia]).
  apply iloc_neg_lookup; rewrite length_rolling_mean; [lia|].
  unfold rolling_mean. rewrite list_lookup_fmap, lookup_seq_lt by lia. simpl.
  f_equal. f_equal. apply take_ge. lia.
Qed.

Lemma length_finite_values s : (length (finite_values s) ≤ length s)%nat.
Proof.
  induction s as [|x s IH]; simpl; [done|].
  destruct x; simpl; lia.
Qed.

Lemma finite_values_Fin qs : finite_values (Fin <$> qs) = qs.
Proof. induction qs as [|q qs IH]; simpl; [done|by f_equal]. Qed.

Lemma length_lastn {A} n (l : list A) : length (lastn n l) = Nat.min n (length l).
Proof. unfold lastn. rewrite length_drop. lia. Qed.

Lemma lastn_fmap {A B} (f : A → B) n l : lastn n (f <$> l) = f <$> lastn n l.
Proof. unfold lastn. by rewrite length_fmap, fmap_drop. Qed.

(** fewer rows than the window: no value *)
Lemma window_mean_short w s : (length s < w)%nat → window_mean w s = NaN.
Proof.
  intros Hlt. unfold window_mean.
  pose proof (length_finite_values (lastn w s)) as Hle. rewrite length_lastn in Hle.
  by destruct (Nat.leb_spec w (length (finite_values (lastn w s)))); [lia|].
Qed.

(** a full window of finite values: their arithmetic mean *)
Lemma window_mean_full w qs :
  (w ≤ length qs)%nat → window_mean w (Fin <$> qs) = Fin (mean_Q (lastn w qs)).
Proof.
  intros Hle. unfold window_mean. rewrite lastn_fmap, finite_values_Fin.
  rewrite length_lastn. by destruct (Nat.leb_spec w (Nat.min w (length qs))); [|lia].
Qed.

(** ** calculate_metrics on a series *)

Lemma getcol_ok {I C} (df : Frame I C) name c :
  assoc name (columns df) = Some c → getcol df name = Ok c.
Proof. intros Hc. unfold getcol. by rewrite Hc. Qed.

Lemma setcol_ok {I C} (df : Frame I C) name (c : list C) :
  length c = len df →
  setcol df name c = Ok (mkFrame (index df) (assign name c (columns df))).
Proof. intros Hc. unfold setcol. by rewrite Hc, Nat.eqb_refl. Qed.

Ltac column :=
  simpl columns; repeat (rewrite assoc_assign_ne by done);
  try rewrite assoc_assign_eq; try eassumption; try reflexivity.

Section MetricsFacts.
Context `{Pandas}.

Lemma series_column (f : DataFrame) name :
  is_series f → name ∈ series_columns →
  ∃ c, assoc name (columns f) = Some c ∧ length c = len f.
Proof.
  intros Hs Hin. unfold is_series in Hs. rewrite forallb_forall in Hs.
  apply list_elem_of_In, Hs in Hin. unfold has_column in Hin.
  destruct (assoc name (columns f)) as [c|]; [|done].
  exists c. split; [done|]. by apply Nat.eqb_eq.
Qed.

(** on a non-empty series every lookup of lines 73-96 succeeds *)
Lemma calculate_metrics_body_series (f : DataFrame) :
  is_series f → len f ≠ 0%nat →
  ∃ close vol high low latest previous last_volume,
    assoc "Close" (columns f) = Some close ∧ length close = len f ∧
    assoc "Volume" (columns f) = Some vol ∧
    assoc "High" (columns f) = Some high ∧
    assoc "Low" (columns f) = Some low ∧
    last close = Some latest ∧
    previous_close close = Some previous ∧
    last vol = Some last_volume ∧
    calculate_metrics_body f =
      Ok ({| current_price := latest;
             daily_change := f64_sub latest previous;
             daily_change_pct :=
               f64_mul (f64_div (f64_sub latest previous) previous) (Fin 100);
             volume := last_volume;
             high_52w := Series_max high;
             low_52w := Series_min low;
             avg_volume := Series_mean vol;
             volatility := f64_mul (Series_std (pct_change close)) (Fin 100);
             ma_20 := none_if_na (window_mean 20 close);
             ma_50 := none_if_na (window_mean 50 close) |},
          with_indicators f close).
Proof.
  intros Hs Hlen.
  destruct (series_column f "Close" Hs) as (close & Hclose & Lclose); [set_solver|].
  destruct (series_column f "Volume" Hs) as (vol & Hvol & Lvol); [set_solver|].
  destruct (series_column f "High" Hs) as (high & Hhigh & _); [set_solver|].
  destruct (series_column f "Low" Hs) as (low & Hlow & _); [set_solver|].
  assert (close ≠ []) as Hne by (intros ->; simpl in Lclose; lia).
  assert (vol ≠ []) as Hvne by (intros ->; simpl in Lvol; lia).
  destruct (lookup_lt_is_Some_2 close (length close - 1)) as [latest Hlatest]; [lia|].
  destruct (lookup_lt_is_Some_2 vol (length vol - 1)) as [lastv Hlastv]; [lia|].
  assert (∃ previous, previous_close close = Some previous ∧
            (if (1 <? len f)%nat then iloc_neg close 2 else Ok latest) = Ok previous)
    as (previous & Hprev & Hprev').
  { unfold previous_close. rewrite <- Lclose.
    destruct (Nat.ltb_spec 1 (length close)).
    - destruct (lookup_lt_is_Some_2 close (length close - 2)) as [p Hp]; [lia|].
      exists p. split; [done|]. apply iloc_neg_lookup; [lia|done].
    - exists latest. split; [|done]. rewrite last_lookup.
      by replace (Nat.pred (length close)) with (length close - 1)%nat by lia. }
  exists close, vol, high, low, latest, previous, lastv.
  repeat (split; [first [done | by rewrite last_lookup;
      match goal with |- ?l !! Nat.pred ?n = _ =>
        replace (Nat.pred n) with (n - 1)%nat by lia end]|]).
  unfold calculate_metrics_body.
  rewrite (getcol_ok _ _ _ Hclose). cbn [bind].
  rewrite (iloc_neg_lookup close 1 latest) by (done || lia). cbn [bind].
  rewrite Hprev'. cbn [bind].
  rewrite setcol_ok by (by rewrite length_rolling_mean). cbn [bind].
  rewrite (getcol_ok _ "Close" close) by column. cbn [bind].
  rewrite setcol_ok by (by rewrite length_rolling_mean). cbn [bind].
  rewrite (getcol_ok _ "Close" close) by column. cbn [bind].
  rewrite setcol_ok by (by rewrite length_pct_change). cbn [bind].
  rewrite (getcol_ok _ "Volume" vol) by column. cbn [bind].
  rewrite (getcol_ok _ "High" high) by column. cbn [bind].
  rewrite (getcol_ok _ "Low" low) by column. cbn [bind].
  rewrite (getcol_ok _ "Daily_Return" (pct_change close)) by column. cbn [bind].
  rewrite (getcol_ok _ "MA_20" (rolling_mean 20 close)) by column. cbn [bind].
  rewrite (getcol_ok _ "MA_50" (rolling_mean 50 close)) by column. cbn [bind].
  unfold build_metrics.
  rewrite (iloc_neg_lookup vol 1 lastv) by (done || lia). cbn [bind].
  rewrite !rolling_mean_last by done. cbn [bind].
  reflexivity.
Qed.
End MetricsFacts.

Section MetricsClaims.
Context `{Pandas}.
Implicit Types (h : gmap loc DataFrame) (f : DataFrame).

Lemma series_not_empty f : is_series f → len f ≠ 0%nat → empty f = false.
Proof.
  intros Hs Hlen. destruct (series_column f "Close" Hs) as (c & Hc & _); [set_solver|].
  unfold empty, len in *. destruct (index f); [done|].
  by destruct (columns f).
Qed.

Lemma len_0_empty f : len f = 0%nat → empty f = true.
Proof. unfold empty, len. by destruct (index f). Qed.

Lemma calculate_metrics_empty h l f :
  h !! l = Some f → len f = 0%nat → calculate_metrics (Some l) h = Ok (EmptyDict, h).
Proof.
  intros Hl Hlen. unfold calculate_metrics. rewrite Hl.
  unfold empty, len in *. by destruct (index f).
Qed.

Lemma calculate_metrics_series h l f m f' :
  h !! l = Some f → is_series f → len f ≠ 0%nat →
  calculate_metrics_body f = Ok (m, f') →
  calculate_metrics (Some l) h = Ok (MetricsAndFrame m l, <[l := f']> h).
Proof.
  intros Hl Hs Hlen Hbody. unfold calculate_metrics.
  by rewrite Hl, series_not_empty, Hbody.
Qed.

Lemma valid_argument_series l h :
  valid_argument (Some l) h → ∃ f, h !! l = Some f ∧ is_series f.
Proof. simpl. destruct (h !! l) as [f|]; [eauto|done]. Qed.

(** C1, as the program has it: [calculate_metrics] raises nothing and
    changes no other object.  On [None] or an empty frame it returns [{}]
    and changes nothing at all.  On a non-empty series it returns the pair
    of the metrics and the very reference it was given, and the frame behind
    that reference has been assigned the columns MA_20, MA_50 and
    Daily_Return (the rolling means and the percent change of Close), its
    index and every other column being as they were. *)
Theorem calculate_metrics_frame_effect df h :
  valid_argument df h →
  ∃ ret h', calculate_metrics df h = Ok (ret, h') ∧
    match df with
    | None => ret = EmptyDict ∧ h' = h
    | Some l =>
        ∃ f, h !! l = Some f ∧
          if empty f then ret = EmptyDict ∧ h' = h
          else
            ∃ m f' close, ret = MetricsAndFrame m l ∧ h' = <[l := f']> h ∧
              assoc "Close" (columns f) = Some close ∧
              index f' = index f ∧
              (∀ name, name ∉ derived_columns →
                       assoc name (columns f') = assoc name (columns f)) ∧
              assoc "MA_20" (columns f') = Some (rolling_mean 20 close) ∧
              assoc "MA_50" (columns f') = Some (rolling_mean 50 close) ∧
              assoc "Daily_Return" (columns f') = Some (pct_change close)
    end.
Proof.
  intros Hv. destruct df as [l|]; [|by exists EmptyDict, h].
  apply valid_argument_series in Hv as (f & Hl & Hs).
  destruct (decide (len f = 0%nat)) as [Hlen|Hlen].
  { exists EmptyDict, h. split; [by eapply calculate_metrics_empty|].
    exists f. split; [done|]. by rewrite (len_0_empty f Hlen). }
  destruct (calculate_metrics_body_series f Hs Hlen)
    as (close & vol & high & low & latest & prev & lastv & Hclose & _ & _ & _ & _ & _ & _ & _ & Hbody).
  eexists _, _. split; [by eapply calculate_metrics_series|].
  exists f. split; [done|]. rewrite (series_not_empty f Hs Hlen).
  eexists _, (with_indicators f close), close.
  repeat split; try done; try (by column).
  intros name Hname. unfold derived_columns in Hname.
  rewrite !not_elem_of_cons in Hname. destruct Hname as (? & ? & ? & _).
  simpl. by rewrite !assoc_assign_ne.
Qed.

(** C7: with fewer than 20 (50) bars ma_20 (ma_50) is absent; with at
    least 20 (50) bars of finite closes it is the arithmetic mean of the
    last 20 (50) closes. *)
Theorem moving_average_reported h l f close :
  h !! l = Some f → is_series f → assoc "Close" (columns f) = Some close →
  ∃ ret h', calculate_metrics (Some l) h = Ok (ret, h') ∧
    ((len f < 20)%nat → reported ma_20 ret = None) ∧
    ((len f < 50)%nat → reported ma_50 ret = None) ∧
    (∀ qs, close = Fin <$> qs → (20 ≤ len f)%nat →
           reported ma_20 ret = Some (Fin (mean_Q (lastn 20 qs)))) ∧
    (∀ qs, close = Fin <$> qs → (50 ≤ len f)%nat →
           reported ma_50 ret = Some (Fin (mean_Q (lastn 50 qs)))).
Proof.
  intros Hl Hs Hclose. destruct (decide (len f = 0%nat)) as [Hlen|Hlen].
  { exists EmptyDict, h. split; [by eapply calculate_metrics_empty|].
    repeat split; try done; intros; lia. }
  destruct (calculate_metrics_body_series f Hs Hlen)
    as (close' & vol & high & low & latest & prev & lastv
        & Hclose' & Lclose & _ & _ & _ & _ & _ & _ & Hbody).
  assert (close' = close) as -> by congruence.
  eexists _, _. split; [by eapply calculate_metrics_series|]. simpl.
  repeat split.
  - intros Hlt. by rewrite window_mean_short by lia.
  - intros Hlt. by rewrite window_mean_short by lia.
  - intros qs -> Hge. rewrite length_fmap in Lclose.
    by rewrite window_mean_full by lia.
  - intros qs -> Hge. rewrite length_fmap in Lclose.
    by rewrite window_mean_full by lia.
Qed.


End MetricsClaims.

(** ** sort_index *)

Lemma insert_by_key_perm x l : insert_by_key x l ≡ₚ x :: l.
Proof.
  induction l as [|y l IH]; simpl; [done|].
  destruct (x.1 <=? y.1); [done|]. rewrite IH. apply Permutation_swap.
Qed.

Lemma sort_by_key_perm l : sort_by_key l ≡ₚ l.
Proof.
  induction l as [|x l IH]; simpl; [done|].
  by rewrite insert_by_key_perm, IH.
Qed.

Lemma insert_by_key_sorted x l :
  StronglySorted key_le l → StronglySorted key_le (insert_by_key x l).
Proof.
  induction 1 as [|y l Hl IH Hy]; simpl.
  - by repeat constructor.
  - destruct (Z.leb_spec x.1 y.1) as [Hle|Hgt].
    + constructor; [by constructor|]. constructor; [done|].
      eapply Forall_impl; [exact Hy|]. unfold key_le. intros z Hz. lia.
    + constructor; [done|]. rewrite insert_by_key_perm. constructor; [|done].
      unfold key_le. lia.
Qed.

Lemma sort_by_key_sorted l : StronglySorted key_le (sort_by_key l).
Proof.
  induction l as [|x l IH]; simpl; [constructor|]. by apply insert_by_key_sorted.
Qed.

Lemma keys_ascending (l : list (Z * nat)) :
  StronglySorted key_le l → StronglySorted Z.le (l.*1).
Proof.
  induction 1 as [|x l Hl IH Hx]; simpl; constructor; [done|].
  apply Forall_fmap. by eapply Forall_impl.
Qed.

Lemma ascending_distinct_strict (l : list Z) :
  StronglySorted Z.le l → NoDup l → StronglySorted Z.lt l.
Proof.
  induction 1 as [|x l Hl IH Hx]; intros Hnd; [constructor|].
  apply NoDup_cons in Hnd as [Hx' Hnd]. constructor; [by apply IH|].
  rewrite Forall_forall in Hx |- *. intros y Hy.
  specialize (Hx y Hy). assert (x ≠ y) by (intros ->; done). lia.
Qed.

(** the index after [sort_index] is ascending and holds the same labels *)
Lemma sort_index_ascending {C} (df : Frame Z C) :
  StronglySorted Z.le (index (sort_index df)).
Proof. apply keys_ascending, sort_by_key_sorted. Qed.

Lemma sort_index_perm {C} (df : Frame Z C) : index (sort_index df) ≡ₚ index df.
Proof.
  unfold sort_index. simpl. rewrite sort_by_key_perm.
  rewrite fst_zip; [done|]. unfold len. by rewrite length_seq.
Qed.

(** ** fetch_stock_data *)

Section FetchFacts.
Context `{Pandas}.

(** every failure returns [None] and makes its own call on [st] *)
Lemma fetch_body_of_failure symbol reply k :
  fails symbol reply k →
  fetch_stock_data_body symbol reply = (None, [st_call_of symbol k]).
Proof.
  unfold fetch_stock_data_body.
  destruct 1 as [e|data detail He Hd|data He Hn|data ts He Hn Hg Ht|reply e Hr]; simpl.
  - done.
  - by rewrite He, Hd.
  - by rewrite He, Hn.
  - rewrite He, Hn. simpl. rewrite Hg. simpl. by rewrite Ht.
  - by rewrite Hr.
Qed.

Lemma numeric_columns_index df df' :
  numeric_columns df = Ok df' → index df' = index df.
Proof.
  unfold numeric_columns. destruct (mapM _ _); simpl; [|done]. by intros [= <-].
Qed.

(** what a successful run of the [try] went through *)
Lemma fetch_try_success symbol reply df calls :
  fetch_try symbol reply = Ok (Some df, calls) →
  ∃ data time_series raw df1 stamps df2,
    reply = response (Ok data) ∧
    get_or data time_series_key (JObj []) = Ok time_series ∧
    from_dict time_series = Ok raw ∧
    set_columns raw = Ok df1 ∧
    to_datetime (index df1) = Ok stamps ∧
    set_index df1 stamps = Ok df2 ∧
    numeric_columns (sort_index df2) = Ok df ∧
    calls = [].
Proof.
  unfold fetch_try. destruct reply as [e|[data|e]]; simpl; try done.
  destruct (contains "Error Message" data) as [[]|]; simpl; try done.
  { destruct (subscript data "Error Message"); simpl; done. }
  destruct (contains "Note" data) as [[]|]; simpl; try done.
  destruct (get_or data time_series_key (JObj [])) as [ts|] eqn:Hts; simpl; [|done].
  destruct (truthy ts); simpl; [|done].
  destruct (from_dict ts) as [raw|] eqn:Hraw; simpl; [|done].
  destruct (set_columns raw) as [df1|] eqn:Hdf1; simpl; [|done].
  destruct (to_datetime (index df1)) as [stamps|] eqn:Hst; simpl; [|done].
  destruct (set_index df1 stamps) as [df2|] eqn:Hdf2; simpl; [|done].
  destruct (numeric_columns (sort_index df2)) as [df'|] eqn:Hnum; simpl; [|done].
  intros [= <- <-]. by exists data, ts, raw, df1, stamps, df2.
Qed.

Lemma set_columns_index raw df : set_columns raw = Ok df → index df = raw_index raw.
Proof. unfold set_columns. destruct (_ =? _)%nat; [|done]. by intros [= <-]. Qed.

Lemma set_index_index {I J C} (df : Frame I C) (labels : list J) df' :
  set_index df labels = Ok df' → index df' = labels.
Proof. unfold set_index. destruct (_ =? _)%nat; [|done]. by intros [= <-]. Qed.

(** a fetched frame is indexed by the parsed row labels of the payload,
    rearranged *)
Lemma fetched_index symbol reply df calls :
  fetch_stock_data_body symbol reply = (Some df, calls) →
  StronglySorted Z.le (index df) ∧
  ∃ stamps, parsed_index reply = Ok stamps ∧ index df ≡ₚ stamps.
Proof.
  unfold fetch_stock_data_body. destruct (fetch_try symbol reply) as [r|] eqn:Htry; [|done].
  intros ->. apply fetch_try_success in Htry
    as (data & ts & raw & df1 & stamps & df2 & -> & Hts & Hraw & Hdf1 & Hst & Hdf2 & Hnum & _).
  apply numeric_columns_index in Hnum. rewrite Hnum. split.
  - apply sort_index_ascending.
  - exists stamps. split.
    + simpl. rewrite Hts. simpl. rewrite Hraw. simpl.
      by rewrite <- (set_columns_index _ _ Hdf1).
    + by rewrite sort_index_perm, (set_index_index _ _ _ Hdf2).
Qed.

(** C6: a successful fetch returns a frame whose index is strictly
    ascending, whatever the order of the records in the payload, provided
    the records are keyed by distinct dates (as the members of the
    provider's date-keyed object are). *)
Theorem fetched_series_sorted symbol reply df calls :
  fetch_stock_data_body symbol reply = (Some df, calls) →
  distinct_dates reply →
  StronglySorted Z.lt (index df).
Proof.
  intros Hfetch Hdistinct.
  destruct (fetched_index _ _ _ _ Hfetch) as (Hasc & stamps & Hparsed & Hperm).
  apply ascending_distinct_strict; [done|].
  unfold distinct_dates in Hdistinct. rewrite Hparsed in Hdistinct.
  by rewrite Hperm.
Qed.

(** C3, as the program has it: a payload with an "Error Message" member, a
    payload with a "Note" member, a payload without a (non-empty) time
    series and a transport failure (or any other exception) all make the
    fetch return the same value [None]; what tells them apart is only the
    call made on [st]. *)
Theorem fetch_failures_return_None symbol reply k :
  fails symbol reply k →
  (fetch_stock_data_body symbol reply).1 = None ∧
  (fetch_stock_data_body symbol reply).2 = [st_call_of symbol k].
Proof. intros Hf. by rewrite (fetch_body_of_failure _ _ _ Hf). Qed.

(** conversely, a fetch that returns [None] failed in one of these ways *)
Lemma fetch_None_fails symbol reply calls :
  fetch_stock_data_body symbol reply = (None, calls) → ∃ k, fails symbol reply k.
Proof.
  unfold fetch_stock_data_body.
  destruct (fetch_try symbol reply) as [r|e] eqn:Htry; [|exists (exception e); by constructor].
  intros ->. revert Htry. unfold fetch_try.
  destruct reply as [e|[data|e]]; simpl; try done.
  destruct (contains "Error Message" data) as [[]|] eqn:Herr; simpl; try done.
  { destruct (subscript data "Error Message") as [detail|] eqn:Hd; simpl; [|done].
    intros _. exists (provider_error detail). by constructor. }
  destruct (contains "Note" data) as [[]|] eqn:Hnote; simpl; try done.
  { intros _. exists rate_limit. by constructor. }
  destruct (get_or data time_series_key (JObj [])) as [ts|] eqn:Hts; simpl; [|done].
  destruct (truthy ts) eqn:Htruthy; simpl.
  { destruct (from_dict ts); simpl; [|done].
    destruct (set_columns _) as [df1|]; simpl; [|done].
    destruct (to_datetime _); simpl; [|done].
    destruct (set_index _ _); simpl; [|done].
    destruct (numeric_columns _); simpl; done. }
  intros _. exists no_data. by econstructor.
Qed.
End FetchFacts.

(** ** The cache *)

Section CacheFacts.
Context `{Pandas} (net : network) (API_KEY : option string).

Local Abbreviation cached := (cached_fetch_stock_data net API_KEY).
Local Abbreviation request_of symbol := (mkRequest symbol API_KEY).
Local Abbreviation fetched symbol w :=
  (fetch_stock_data_body symbol (net (length (sent w)) (request_of symbol))).

Lemma cached_hit now symbol w e :
  cache w !! symbol = Some e → fresh now e = true → cached now symbol w = (value e, w).
Proof. intros He Hf. unfold cached_fetch_stock_data. by rewrite He, Hf. Qed.

Lemma cached_miss now symbol w :
  stale now symbol w →
  cached now symbol w =
    ((fetched symbol w).1,
     mkWorld (<[symbol := mkEntry now (fetched symbol w).1]> (cache w))
             (sent w ++ [request_of symbol])).
Proof.
  unfold stale, cached_fetch_stock_data, fetch_stock_data.
  destruct (cache w !! symbol) as [e|]; [intros ->|]; done.
Qed.

Lemma fresh_within t1 t2 v : t2 < t1 + ttl → fresh t2 (mkEntry t1 v) = true.
Proof. intros Ht. unfold fresh. simpl. by apply Z.ltb_lt. Qed.

(** C5: when the first of two calls for a symbol has to fetch and the
    second comes less than [ttl] = 300 later, both return the same value
    and exactly one request goes out for the two. *)
Theorem two_calls_one_request symbol w t1 t2 :
  stale t1 symbol w → t1 ≤ t2 < t1 + ttl →
  let r1 := cached t1 symbol w in
  let r2 := cached t2 symbol r1.2 in
  r2.1 = r1.1 ∧ sent r2.2 = sent w ++ [request_of symbol].
Proof.
  intros Hstale [_ Ht2]. simpl. rewrite (cached_miss _ _ _ Hstale). simpl.
  rewrite (cached_hit t2 symbol _ (mkEntry t1 (fetched symbol w).1)).
  - done.
  - simpl. apply lookup_insert_eq.
  - by apply fresh_within.
Qed.

Lemma requests_for_app symbol log other :
  other ≠ symbol →
  requests_for symbol (log ++ [request_of other]) = requests_for symbol log.
Proof.
  intros Hne. unfold requests_for. rewrite filter_app, filter_cons_False by done.
  by rewrite filter_nil, app_nil_r.
Qed.

Lemma requests_for_last symbol log :
  requests_for symbol (log ++ [request_of symbol])
  = requests_for symbol log ++ [request_of symbol].
Proof.
  unfold requests_for. by rewrite filter_app, filter_cons_True, filter_nil by done.
Qed.

(** a stored value stays where it is, and nothing more is requested for
    its symbol, as long as the calls come before it expires *)
Lemma run_calls_keeps_entry symbol t1 v calls w :
  cache w !! symbol = Some (mkEntry t1 v) →
  Forall (λ c, c.1 < t1 + ttl) calls →
  cache (run_calls net API_KEY calls w) !! symbol = Some (mkEntry t1 v) ∧
  requests_for symbol (sent (run_calls net API_KEY calls w)) = requests_for symbol (sent w).
Proof.
  intros Hentry Hcalls. revert w Hentry.
  induction Hcalls as [|[t s] calls Ht _ IH]; intros w Hentry; simpl; [done|].
  simpl in Ht. destruct (decide (s = symbol)) as [->|Hne].
  - rewrite (cached_hit _ _ _ _ Hentry) by (by apply fresh_within). by apply IH.
  - unfold cached_fetch_stock_data, fetch_stock_data.
    destruct (cache w !! s) as [e|]; [destruct (fresh t e)|]; simpl;
      try (by apply IH);
      (destruct (IH (mkWorld (<[s := mkEntry t (fetched s w).1]> (cache w))
                             (sent w ++ [request_of s]))) as [IH1 IH2];
       [by simpl; rewrite lookup_insert_ne|];
       split; [done|]; rewrite IH2; simpl; by apply requests_for_app).
Qed.

(** C10: a fetch that fails sends its request and returns [None], and
    [None] is what the cache stores under the symbol, stamped with the time
    of the call.  That entry stays in place through whatever calls come
    before the [ttl] has passed, no further request is sent for the symbol,
    and every call for the symbol in that time returns [None] again and
    leaves the world as it is. *)
Theorem failed_fetch_is_cached symbol w t1 k calls :
  stale t1 symbol w →
  fails symbol (net (length (sent w)) (request_of symbol)) k →
  Forall (λ c, c.1 < t1 + ttl) calls →
  let r1 := cached t1 symbol w in
  let w2 := run_calls net API_KEY calls r1.2 in
  r1.1 = None ∧
  sent r1.2 = sent w ++ [request_of symbol] ∧
  cache r1.2 !! symbol = Some (mkEntry t1 None) ∧
  cache w2 !! symbol = Some (mkEntry t1 None) ∧
  requests_for symbol (sent w2) = requests_for symbol (sent w) ++ [request_of symbol] ∧
  ∀ t2, t2 < t1 + ttl → cached t2 symbol w2 = (None, w2).
Proof.
  intros Hstale Hfail Hcalls. simpl.
  rewrite (cached_miss _ _ _ Hstale), (fetch_body_of_failure _ _ _ Hfail). simpl.
  destruct (run_calls_keeps_entry symbol t1 None calls
              (mkWorld (<[symbol := mkEntry t1 None]> (cache w))
                       (sent w ++ [request_of symbol]))) as [Hkept Hreq]; [|done|].
  { simpl. apply lookup_insert_eq. }
  split; [done|]. split; [done|]. split; [apply lookup_insert_eq|].
  split; [exact Hkept|]. split.
  { rewrite Hreq. simpl. apply requests_for_last. }
  intros t2 Ht2. rewrite (cached_hit t2 symbol _ (mkEntry t1 None)); [done|exact Hkept|].
  by apply fresh_within.
Qed.

(** C2, as the program has it: when the stored value for a symbol has
    expired and the new fetch fails, the caller gets [None] and [None] is
    stored under the symbol in place of the earlier snapshot. *)
Theorem expired_failure_replaces_snapshot symbol w e now k :
  cache w !! symbol = Some e → fresh now e = false →
  fails symbol (net (length (sent w)) (request_of symbol)) k →
  let r := cached now symbol w in
  r.1 = None ∧
  cache r.2 !! symbol = Some (mkEntry now None) ∧
  sent r.2 = sent w ++ [request_of symbol].
Proof.
  intros He Hexp Hfail. simpl.
  rewrite cached_miss by (unfold stale; by rewrite He).
  rewrite (fetch_body_of_failure _ _ _ Hfail). simpl.
  split; [done|]. split; [apply lookup_insert_eq|done].
Qed.
End CacheFacts.

(** ** main and the credential *)

Section MainFacts.
Context `{Pandas} (net : network).

(** the guard of line 199 stops the run before anything is sent *)
Lemma main_placeholder_stops now ui w :
  refresh_clicked ui = false →
  main net (Some placeholder) now ui w = (Stopped, w).
Proof. intros Hr. unfold main. by rewrite Hr, bool_decide_eq_true_2. Qed.

Lemma render_not_Stopped symbol p df : render symbol p df ≠ Stopped.
Proof.
  unfold render. destruct (calculate_metrics _ _) as [[[|m l] h]|e]; try done.
  by destruct (h !! l).
Qed.

(** C4 at the failing input: with the environment variable unset
    ([API_KEY] is [None]) a run with the default sidebar on a cold cache is
    not stopped and sends a request that carries no key. *)
Theorem main_unset_key_sends_request now :
  let r := main net None now (mkSidebar "AAPL" "" Days30 false) (mkWorld ∅ []) in
  r.1 ≠ Stopped ∧ sent r.2 = [mkRequest "AAPL" None].
Proof.
  intros r. subst r. unfold main. cbn -[cached_fetch_stock_data render].
  rewrite cached_miss by (unfold stale; simpl; by rewrite lookup_empty). simpl.
  destruct (fetch_stock_data_body _ _) as [[df|] calls]; simpl; [|done].
  destruct (empty df); [done|]. split; [apply render_not_Stopped|done].
Qed.
End MainFacts.

(** * Concrete runs of the statements *)

(** C1 as stated fails: after [calculate_metrics] on a one-bar series the
    caller's frame is no longer the frame that was passed in (it has gained
    three columns). *)
Lemma calculate_metrics_changes_argument :
  ∃ ret h', calculate_metrics (Some 0%nat) {[ 0%nat := one_bar ]} = Ok (ret, h') ∧
            h' !! 0%nat ≠ Some one_bar ∧
            (columns <$> h' !! 0%nat) =
              Some (columns one_bar ++
                    [("MA_20", [NaN]); ("MA_50", [NaN]); ("Daily_Return", [NaN])]).
Proof.
  eexists _, _. split; [vm_compute; reflexivity|].
  split; [vm_compute; discriminate|vm_compute; reflexivity].
Qed.

Lemma calculate_metrics_frame_effect_witness :
  valid_argument (Some 0%nat) {[ 0%nat := one_bar ]} ∧
  ∃ m f', calculate_metrics (Some 0%nat) {[ 0%nat := one_bar ]}
          = Ok (MetricsAndFrame m 0%nat, <[0%nat := f']> {[ 0%nat := one_bar ]}) ∧
          index f' = index one_bar ∧
          assoc "MA_20" (columns f') = Some [NaN] ∧
          assoc "MA_50" (columns f') = Some [NaN] ∧
          assoc "Daily_Return" (columns f') = Some [NaN].
Proof.
  assert (valid_argument (Some 0%nat) {[ 0%nat := one_bar ]}) as Hv
    by (vm_compute; reflexivity).
  split; [exact Hv|].
  destruct (calculate_metrics_frame_effect (Some 0%nat) {[ 0%nat := one_bar ]} Hv)
    as (ret & h' & Hcall & f & Hf & Heffect).
  assert (f = one_bar) as ->
    by (apply (inj Some); rewrite <- Hf; vm_compute; reflexivity).
  change (empty one_bar) with false in Heffect.
  destruct Heffect as (m & f' & close & -> & -> & Hclose & Hindex & _ & H20 & H50 & Hret).
  assert (close = [Fin 100]) as ->
    by (apply (inj Some); rewrite <- Hclose; reflexivity).
  exists m, f'. split; [exact Hcall|]. split; [exact Hindex|].
  split; [exact H20|]. split; [exact H50|exact Hret].
Defined.

(** C2 as stated fails: a snapshot for AAPL stored at time 0 is expired at
    time 300; the new fetch fails, and afterwards the cache holds [None] for
    AAPL, not the snapshot. *)
Lemma stale_snapshot_not_preserved :
  let r := cached_fetch_stock_data failing_net demo_key 300 "AAPL" warm_world in
  cache warm_world !! "AAPL" = Some (mkEntry 0 (Some one_bar)) ∧
  r.1 = None ∧
  cache r.2 !! "AAPL" = Some (mkEntry 300 None) ∧
  (value <$> cache r.2 !! "AAPL") ≠ Some (Some one_bar).
Proof. vm_compute. repeat split; discriminate. Qed.

Lemma expired_failure_replaces_snapshot_witness :
  let r := cached_fetch_stock_data failing_net demo_key 300 "AAPL" warm_world in
  r.1 = None ∧
  cache r.2 !! "AAPL" = Some (mkEntry 300 None) ∧
  sent r.2 = sent warm_world ++ [mkRequest "AAPL" demo_key].
Proof.
  apply (expired_failure_replaces_snapshot failing_net demo_key "AAPL" warm_world
           (mkEntry 0 (Some one_bar)) 300
           (exception (LibraryError "connection refused"))).
  - vm_compute. reflexivity.
  - vm_compute. reflexivity.
  - apply fails_transport.
Defined.

(** C3 as stated fails: an invalid-symbol payload and a rate-limit payload
    give the caller the same return value, so no reading of the return
    value alone tells [InvalidSymbol] from [RateLimited]. *)
Lemma failures_not_distinguishable :
  (fetch_stock_data_body "AAPL" (response (Ok error_payload))).1
  = (fetch_stock_data_body "AAPL" (response (Ok note_payload))).1 ∧
  ¬ ∃ classify : option DataFrame → spec_FetchError,
      classify (fetch_stock_data_body "AAPL" (response (Ok error_payload))).1
      = InvalidSymbol ∧
      classify (fetch_stock_data_body "AAPL" (response (Ok note_payload))).1
      = RateLimited.
Proof.
  split; [reflexivity|].
  intros (classify & Herr & Hnote).
  change (classify None = InvalidSymbol) in Herr.
  change (classify None = RateLimited) in Hnote.
  congruence.
Qed.

Lemma fetch_failures_return_None_witness :
  (fetch_stock_data_body "AAPL" (response (Ok note_payload))).1 = None ∧
  (fetch_stock_data_body "AAPL" (response (Ok note_payload))).2 = [st_warning_rate_limit].
Proof.
  apply (fetch_failures_return_None "AAPL" (response (Ok note_payload)) rate_limit).
  apply fails_rate_limit; vm_compute; reflexivity.
Defined.

Lemma two_calls_one_request_witness :
  let r1 := cached_fetch_stock_data sample_net demo_key 0 "AAPL" cold_world in
  let r2 := cached_fetch_stock_data sample_net demo_key 299 "AAPL" r1.2 in
  r2.1 = r1.1 ∧ sent r2.2 = sent cold_world ++ [mkRequest "AAPL" demo_key].
Proof.
  apply (two_calls_one_request sample_net demo_key "AAPL" cold_world 0 299).
  - vm_compute. exact I.
  - vm_compute. split; [discriminate|reflexivity].
Defined.

Lemma fetched_series_sorted_witness :
  fetch_stock_data_body "AAPL" (response (Ok sample_payload)) = (Some sample_frame, []) ∧
  index sample_frame = [1704240000000000000; 1704326400000000000; 1704412800000000000] ∧
  StronglySorted Z.lt (index sample_frame).
Proof.
  assert (fetch_stock_data_body "AAPL" (response (Ok sample_payload))
          = (Some sample_frame, [])) as Hfetch by (vm_compute; reflexivity).
  split; [exact Hfetch|]. split; [reflexivity|].
  apply (fetched_series_sorted "AAPL" (response (Ok sample_payload)) sample_frame []).
  - exact Hfetch.
  - vm_compute. apply (bool_decide_unpack _). vm_compute. exact I.
Defined.

Lemma moving_average_reported_witness :
  ∃ ret h', calculate_metrics (Some 0%nat) {[ 0%nat := twenty_bars ]} = Ok (ret, h') ∧
            reported ma_20 ret = Some (Fin (mean_Q (replicate 20 100%Q))) ∧
            reported ma_50 ret = None.
Proof.
  destruct (moving_average_reported {[ 0%nat := twenty_bars ]} 0%nat twenty_bars
              (Fin <$> replicate 20 100%Q))
    as (ret & h' & Hcall & _ & H50 & H20 & _).
  - vm_compute. reflexivity.
  - vm_compute. reflexivity.
  - vm_compute. reflexivity.
  - exists ret, h'. split; [exact Hcall|]. split.
    + apply (H20 (replicate 20 100%Q)); [reflexivity|vm_compute; lia].
    + apply H50. vm_compute. lia.
Defined.



Lemma failed_fetch_is_cached_witness :
  let r1 := cached_fetch_stock_data failing_net demo_key 0 "AAPL" cold_world in
  let w2 := run_calls failing_net demo_key [(10, "MSFT"); (20, "AAPL")] r1.2 in
  r1.1 = None ∧
  sent r1.2 = sent cold_world ++ [mkRequest "AAPL" demo_key] ∧
  cache r1.2 !! "AAPL" = Some (mkEntry 0 None) ∧
  cache w2 !! "AAPL" = Some (mkEntry 0 None) ∧
  requests_for "AAPL" (sent w2)
  = requests_for "AAPL" (sent cold_world) ++ [mkRequest "AAPL" demo_key] ∧
  ∀ t2, t2 < 0 + ttl → cached_fetch_stock_data failing_net demo_key t2 "AAPL" w2 = (None, w2).
Proof.
  apply (failed_fetch_is_cached failing_net demo_key "AAPL" cold_world 0
           (exception (LibraryError "connection refused"))
           [(10, "MSFT"); (20, "AAPL")]).
  - vm_compute. exact I.
  - apply fails_transport.
  - repeat constructor.
Defined.

(** the closes 10, 12, 9, 11, 15: current price 15, change 4 from the
    previous close 11, that is 400/11 percent *)
Example metrics_of_five_closes :
  ∃ m h', calculate_metrics (Some 0%nat)
            {[ 0%nat := series_of_closes [10; 12; 9; 11; 15]%Q ]}
          = Ok (MetricsAndFrame m 0%nat, h') ∧
          current_price m = Fin 15 ∧
          daily_change m = Fin 4 ∧
          daily_change_pct m = Fin (400 # 11) ∧
          ma_20 m = None.
Proof. eexists _, _. split; [vm_compute; reflexivity|]. by repeat split. Qed.

(** the guard of line 199 at work: with the placeholder as key nothing is
    sent *)
Example placeholder_key_sends_nothing :
  main sample_net (Some placeholder) 0 (mkSidebar "AAPL" "" Days30 false) cold_world
  = (Stopped, cold_world).
Proof. by apply main_placeholder_stops. Qed.

(** * Further properties of the program *)

(** ** Rows under sort_index *)

Lemma well_formed_Forall {I C} (df : Frame I C) :
  well_formed df ↔ Forall (λ col, length col.2 = len df) (columns df).
Proof.
  unfold well_formed. rewrite forallb_forall, Forall_forall.
  split; intros Hall col Hin.
  - apply Nat.eqb_eq, Hall. by apply list_elem_of_In.
  - apply Nat.eqb_eq, Hall. by apply list_elem_of_In.
Qed.

Lemma take_rows_lookup {C} (c : list C) js i :
  Forall (λ j, j < length c)%nat js →
  take_rows js c !! i = js !! i ≫= (λ j, c !! j).
Proof.
  intros Hjs. revert i. unfold take_rows.
  induction Hjs as [|j js Hj _ IH]; intros i; [done|].
  destruct (lookup_lt_is_Some_2 c j Hj) as [x Hx].
  cbn. rewrite Hx. destruct i as [|i]; simpl; [done|apply IH].
Qed.

Lemma length_take_rows {C} (c : list C) js :
  Forall (λ j, j < length c)%nat js → length (take_rows js c) = length js.
Proof.
  unfold take_rows. induction 1 as [|j js Hj _ IH]; [done|].
  destruct (lookup_lt_is_Some_2 c j Hj) as [x Hx]. cbn. rewrite Hx. simpl. by f_equal.
Qed.

Lemma take_rows_seq {C} (pre c : list C) :
  take_rows (seq (length pre) (length c)) (pre ++ c) = c.
Proof.
  unfold take_rows. revert pre. induction c as [|x c IH]; intros pre; [done|].
  cbn. rewrite lookup_app_r, Nat.sub_diag by lia. simpl. f_equal.
  specialize (IH (pre ++ [x])). rewrite length_app, <- app_assoc in IH. simpl in IH.
  by replace (length pre + 1)%nat with (S (length pre)) in IH by lia.
Qed.

Lemma sort_by_key_positions (l : list (Z * nat)) n :
  Forall (λ p, p.2 < n)%nat l → Forall (λ j, j < n)%nat ((sort_by_key l).*2).
Proof.
  intros Hl. apply Forall_fmap. by rewrite sort_by_key_perm.
Qed.

Lemma zip_seq_positions {A} (l : list A) k n :
  Forall (λ p : A * nat, p.2 < k + n)%nat (zip l (seq k n)).
Proof.
  revert l k. induction n as [|n IH]; intros [|x l] k; simpl; try constructor.
  - simpl. lia.
  - replace (k + S n)%nat with (S k + n)%nat by lia. apply IH.
Qed.

Lemma zip_seq_labels {A} (l : list A) (p : A * nat) k :
  p ∈ zip l (seq k (length l)) → l !! (p.2 - k)%nat = Some p.1 ∧ (k ≤ p.2)%nat.
Proof.
  revert k. induction l as [|x l IH]; intros k; simpl; [by intros ?%elem_of_nil|].
  intros [->|Hin]%elem_of_cons; simpl.
  - by rewrite Nat.sub_diag.
  - apply IH in Hin as [Hl Hk]. split; [|lia].
    by replace (p.2 - k)%nat with (S (p.2 - S k)) by lia.
Qed.

(** X1: [sort_index] moves whole rows: the rows of the sorted frame, each a
    label with its cells, are the rows of the frame it was given, rearranged. *)
Theorem sort_index_rows {C} (df : Frame Z C) :
  well_formed df → rows (sort_index df) ≡ₚ rows df.
Proof.
  intros Hwf%well_formed_Forall. unfold rows.
  set (order := sort_by_key (zip (index df) (seq 0 (len df)))).
  assert (Forall (λ j, j < len df)%nat (order.*2)) as Hpos
    by apply sort_by_key_positions, (zip_seq_positions _ 0).
  assert (length order = len df) as Hlen.
  { unfold order. rewrite sort_by_key_perm, length_zip, length_seq. unfold len. lia. }
  trans ((λ p : Z * nat, (p.1, row_cells (columns df) p.2)) <$> order);
    [|by unfold order; rewrite sort_by_key_perm].
  match goal with |- ?a ≡ₚ ?b => assert (a = b) as ->; [|done] end.
  unfold sort_index. fold order. simpl. unfold len at 1. simpl.
  rewrite length_fmap, Hlen. apply list_eq. intros i.
  rewrite !list_lookup_fmap, lookup_zip_with, list_lookup_fmap.
  destruct (order !! i) as [[k j]|] eqn:Hi; simpl; [|done].
  rewrite lookup_seq_lt by (apply lookup_lt_Some in Hi; lia). simpl.
  f_equal. f_equal. unfold row_cells. rewrite <- list_fmap_compose.
  apply Forall_fmap_ext. eapply Forall_impl; [exact Hwf|].
  intros col Hcol. simpl. rewrite take_rows_lookup by (by rewrite Hcol).
  by rewrite list_lookup_fmap, Hi.
Qed.

Lemma insert_by_key_head x l :
  Forall (key_le x) l → insert_by_key x l = x :: l.
Proof.
  destruct 1 as [|y l Hy _]; simpl; [done|].
  unfold key_le in Hy. by destruct (Z.leb_spec x.1 y.1); [|lia].
Qed.

Lemma sort_by_key_sorted_id l : StronglySorted key_le l → sort_by_key l = l.
Proof.
  induction 1 as [|x l _ IH Hx]; simpl; [done|].
  rewrite IH. by apply insert_by_key_head.
Qed.

Lemma zip_ascending (l : list Z) (ks : list nat) :
  StronglySorted Z.le l → StronglySorted key_le (zip l ks).
Proof.
  intros Hl. revert ks. induction Hl as [|x l _ IH Hx]; intros ks; [constructor|].
  destruct ks as [|k ks]; simpl; [constructor|]. constructor; [apply IH|].
  rewrite Forall_forall in Hx. apply Forall_forall. intros [y j] Hin.
  unfold key_le. simpl. apply Hx. by apply elem_of_zip_l in Hin.
Qed.

(** X2: a frame whose index is already ascending comes out of [sort_index]
    unchanged. *)
Theorem sort_index_ascending_id {C} (df : Frame Z C) :
  well_formed df → StronglySorted Z.le (index df) → sort_index df = df.
Proof.
  intros Hwf%well_formed_Forall Hasc. unfold sort_index.
  rewrite sort_by_key_sorted_id by (by apply zip_ascending).
  rewrite fst_zip, snd_zip by (unfold len; rewrite length_seq; lia).
  destruct df as [idx cols]. simpl in *. f_equal.
  induction Hwf as [|[n c] cols' Hc _ IH]; simpl; [done|]. f_equal; [|exact IH].
  f_equal. simpl in Hc. unfold len in *. simpl in *. rewrite <- Hc.
  apply (take_rows_seq []).
Qed.

Section FetchShape.
Context `{Pandas}.

Lemma mapM_convert_columns (df0 : Frame Z json) cols cols' :
  mapM (convert_column df0) cols = Ok cols' →
  cols'.*1 = cols.*1 ∧ Forall (λ col, length col.2 = len df0) cols'.
Proof.
  revert cols'. induction cols as [|col cols IH]; intros cols'; simpl.
  - by intros [= <-].
  - unfold convert_column at 1. destruct (to_numeric col.2) as [values|]; simpl; [|done].
    destruct (Nat.eqb_spec (length values) (len df0)) as [Hlen|]; simpl; [|done].
    destruct (mapM (convert_column df0) cols) as [rest|]; simpl; [|done].
    intros [= <-]. destruct (IH rest eq_refl) as [Hnames Hlens]. simpl.
    split; [by f_equal|by constructor].
Qed.

Lemma sort_index_names {C} (df : Frame Z C) :
  (columns (sort_index df)).*1 = (columns df).*1.
Proof. unfold sort_index. simpl. rewrite <- list_fmap_compose. by apply list_fmap_ext. Qed.

Lemma len_sort_index {C} (df : Frame Z C) : len (sort_index df) = len df.
Proof. unfold len. by rewrite sort_index_perm. Qed.

Lemma series_shape_is_series (f : DataFrame) : series_shape f → is_series f.
Proof.
  intros [Hnames Hwf]. unfold well_formed in Hwf. unfold is_series, has_column.
  destruct (columns f) as [|[n1 c1] [|[n2 c2] [|[n3 c3] [|[n4 c4] [|[n5 c5] [|]]]]]];
    try done.
  injection Hnames as -> -> -> -> ->. simpl in *.
  rewrite !andb_true_iff in Hwf. destruct Hwf as (-> & -> & -> & -> & -> & _). done.
Qed.

Lemma set_columns_names raw df : set_columns raw = Ok df → (columns df).*1 = series_columns.
Proof.
  unfold set_columns.
  destruct (Nat.eqb_spec (length (raw_data raw)) (length series_columns)); [|done].
  intros Heq.
  replace df with (mkFrame (raw_index raw) (zip series_columns (raw_data raw)))
    by congruence.
  apply (fst_zip series_columns). lia.
Qed.

Lemma set_index_columns {I J C} (df : Frame I C) (labels : list J) df' :
  set_index df labels = Ok df' → columns df' = columns df.
Proof. unfold set_index. destruct (_ =? _)%nat; [|done]. by intros [= <-]. Qed.

Lemma fetched_shape symbol reply df calls :
  fetch_stock_data_body symbol reply = (Some df, calls) → series_shape df.
Proof.
  unfold fetch_stock_data_body. destruct (fetch_try symbol reply) as [r|] eqn:Htry; [|done].
  intros ->. apply fetch_try_success in Htry
    as (data & ts & raw & df1 & stamps & df2 & _ & _ & _ & Hdf1 & _ & Hdf2 & Hnum & _).
  unfold numeric_columns in Hnum.
  destruct (mapM _ _) as [cols|] eqn:Hcols; [|done].
  cbn [bind] in Hnum. injection Hnum as <-.
  apply mapM_convert_columns in Hcols as [Hnames Hlens].
  split.
  - cbn [columns]. rewrite Hnames, sort_index_names.
    rewrite (set_index_columns _ _ _ Hdf2). by apply (set_columns_names raw).
  - apply well_formed_Forall. cbn [columns]. unfold len at 1. cbn [index]. exact Hlens.
Qed.

(** X3: a frame that [fetch_stock_data] returns has exactly the columns
    Open, High, Low, Close and Volume, in this order, whatever the provider
    named them, and every column has one cell per row. *)
Theorem fetched_frame_columns symbol reply df calls :
  fetch_stock_data_body symbol reply = (Some df, calls) →
  (columns df).*1 = series_columns ∧
  Forall (λ col, length col.2 = len df) (columns df).
Proof.
  intros Hfetch%fetched_shape. split; [apply Hfetch|].
  apply well_formed_Forall, Hfetch.
Qed.

(** X4: the index of a fetched frame depends only on which dates the
    payload holds, not on the order they come in: two successful fetches
    whose row labels parse to the same dates return the same index. *)
Theorem fetched_index_order_independent symbol reply reply' df df' calls calls' stamps stamps' :
  fetch_stock_data_body symbol reply = (Some df, calls) →
  fetch_stock_data_body symbol reply' = (Some df', calls') →
  parsed_index reply = Ok stamps → parsed_index reply' = Ok stamps' →
  stamps ≡ₚ stamps' →
  index df = index df'.
Proof.
  intros Hf Hf' Hp Hp' Hperm.
  destruct (fetched_index _ _ _ _ Hf) as (Hasc & s & Hs & Hidx).
  destruct (fetched_index _ _ _ _ Hf') as (Hasc' & s' & Hs' & Hidx').
  assert (s = stamps) as -> by congruence. assert (s' = stamps') as -> by congruence.
  apply (StronglySorted_unique Z.le); [done..|].
  by rewrite Hidx, Hidx'.
Qed.

(** X5: a decoded body that is not a JSON object never yields a frame: the
    fetch returns [None] whether the body is null, a boolean, a number, a
    string or an array. *)
Theorem non_object_body_returns_None symbol data :
  (∀ ms, data ≠ JObj ms) →
  (fetch_stock_data_body symbol (response (Ok data))).1 = None.
Proof.
  intros Hobj. unfold fetch_stock_data_body, fetch_try.
  destruct data as [| | | |items|ms]; simpl; try done; [| |by destruct (Hobj ms)].
  - destruct (bool_decide _); simpl; [done|]. by destruct (bool_decide _).
  - destruct (existsb _ items); simpl; [done|]. by destruct (existsb _ items).
Qed.

(** X6: a payload object without "Error Message" and "Note" whose time
    series member is not itself an object never yields a frame. *)
Theorem non_object_time_series_returns_None symbol ms ts :
  members_lookup "Error Message" ms = None →
  members_lookup "Note" ms = None →
  members_lookup time_series_key ms = Some ts →
  (∀ records, ts ≠ JObj records) →
  (fetch_stock_data_body symbol (response (Ok (JObj ms)))).1 = None.
Proof.
  intros He Hn Hts Hobj. unfold fetch_stock_data_body, fetch_try. simpl.
  rewrite He, Hn, Hts. simpl.
  destruct ts as [|b|x|s|items|records]; try (by destruct (Hobj records));
    by destruct (truthy _).
Qed.

(** X7: when the frame built from the time series does not have exactly
    five columns, renaming the columns fails and the fetch returns [None]
    with the error reported through [st.error]. *)
Theorem wrong_column_count_returns_None symbol ms records raw :
  members_lookup "Error Message" ms = None →
  members_lookup "Note" ms = None →
  members_lookup time_series_key ms = Some (JObj records) →
  records ≠ [] →
  from_dict_index records = Ok raw →
  length (raw_data raw) ≠ 5%nat →
  fetch_stock_data_body symbol (response (Ok (JObj ms)))
  = (None, [st_error_exception symbol ValueError]).
Proof.
  intros He Hn Hts Hne Hraw Hfive. unfold fetch_stock_data_body, fetch_try. simpl.
  rewrite He, Hn, Hts. simpl. rewrite bool_decide_eq_false_2 by done. simpl.
  rewrite Hraw. simpl. unfold set_columns.
  by destruct (Nat.eqb_spec (length (raw_data raw)) (length series_columns)).
Qed.
End FetchShape.

(** ** More on the cache *)

Section CacheMore.
Context `{Pandas} (net : network) (API_KEY : option string).

Local Abbreviation cached := (cached_fetch_stock_data net API_KEY).
Local Abbreviation request_of symbol := (mkRequest symbol API_KEY).

Lemma cached_sent now symbol w :
  sent (cached now symbol w).2 = sent w ∨
  sent (cached now symbol w).2 = sent w ++ [request_of symbol].
Proof.
  unfold cached_fetch_stock_data, fetch_stock_data.
  destruct (cache w !! symbol) as [e|]; [destruct (fresh now e)|]; simpl; auto.
Qed.

(** X8: the expiry boundary.  After a call at [t1] that had to fetch, a call
    for the same symbol at [t2] is answered from the cache exactly when
    [t2 < t1 + 300]; from [t1 + 300] on it sends a new request. *)
Theorem refetch_exactly_after_ttl symbol w t1 t2 :
  stale t1 symbol w →
  let w1 := (cached t1 symbol w).2 in
  sent (cached t2 symbol w1).2 = sent w1 ↔ t2 < t1 + ttl.
Proof.
  intros Hstale. simpl. rewrite (cached_miss _ _ _ _ _ Hstale). cbn [snd].
  set (v := (fetch_stock_data_body symbol _).1).
  set (w1 := mkWorld _ _).
  assert (cache w1 !! symbol = Some (mkEntry t1 v)) as Hentry
    by (unfold w1; simpl; apply lookup_insert_eq).
  split.
  - intros Hsame. destruct (Z.ltb_spec t2 (t1 + ttl)) as [|Hge]; [done|]. exfalso.
    rewrite cached_miss in Hsame.
    + cbn [snd sent] in Hsame. apply (f_equal length) in Hsame.
      rewrite length_app in Hsame. simpl in Hsame. lia.
    + unfold stale. rewrite Hentry. unfold fresh. simpl. by apply Z.ltb_ge.
  - intros Hlt. by rewrite (cached_hit _ _ _ _ _ _ Hentry) by (by apply fresh_within).
Qed.

(** X10: over any sequence of cached calls the request log only grows, by at
    most one request per call; every new request carries the configured key
    and asks for a symbol that was called for. *)
Theorem run_calls_requests calls w :
  ∃ new, sent (run_calls net API_KEY calls w) = sent w ++ new ∧
         (length new ≤ length calls)%nat ∧
         Forall (λ r, req_apikey r = API_KEY ∧ req_symbol r ∈ calls.*2) new.
Proof.
  revert w. induction calls as [|[t s] calls IH]; intros w; simpl.
  - exists []. by rewrite app_nil_r.
  - destruct (IH (cached t s w).2) as (new & Hsent & Hlen & Hall).
    assert (Forall (λ r, req_apikey r = API_KEY ∧ req_symbol r ∈ s :: calls.*2) new) as Hall'.
    { eapply Forall_impl; [exact Hall|]. intros r [? ?]. split; [done|by right]. }
    destruct (cached_sent t s w) as [Hsame|Hgrow].
    + exists new. rewrite Hsent, Hsame. split; [done|]. split; [lia|done].
    + exists (request_of s :: new). rewrite Hsent, Hgrow, <- app_assoc.
      split; [done|]. split; [simpl; lia|]. constructor; [|done].
      split; [done|by left].
Qed.

Lemma run_calls_all_hits symbol t1 v calls w :
  cache w !! symbol = Some (mkEntry t1 v) →
  Forall (λ c, c.2 = symbol ∧ c.1 < t1 + ttl) calls →
  run_calls net API_KEY calls w = w.
Proof.
  intros Hentry. induction 1 as [|[t s] calls [Hs Ht] _ IH]; simpl; [done|].
  simpl in Hs, Ht. subst s.
  by rewrite (cached_hit _ _ _ _ _ _ Hentry) by (by apply fresh_within).
Qed.

(** X11: any number of calls for one symbol inside the ttl window costs a
    single request: the first call fetches, all the others are served from
    the cache. *)
Theorem many_calls_one_request symbol w t1 calls :
  stale t1 symbol w →
  Forall (λ c, c.2 = symbol ∧ c.1 < t1 + ttl) calls →
  sent (run_calls net API_KEY ((t1, symbol) :: calls) w) = sent w ++ [request_of symbol].
Proof.
  intros Hstale Hcalls. simpl. rewrite (cached_miss _ _ _ _ _ Hstale). cbn [snd].
  erewrite run_calls_all_hits; [done| |exact Hcalls].
  simpl. apply lookup_insert_eq.
Qed.

(** X12: [st.cache_data.clear()] empties the cache for every symbol: after a
    run with the refresh button clicked nothing has been sent, and the next
    call for any symbol, at any time, sends a request. *)
Theorem refresh_forces_refetch now ui w :
  refresh_clicked ui = true →
  let r := main net API_KEY now ui w in
  r.1 = Rerun ∧ sent r.2 = sent w ∧
  ∀ later symbol, sent (cached later symbol r.2).2 = sent w ++ [request_of symbol].
Proof.
  intros Hclick. simpl. unfold main. rewrite Hclick. simpl.
  split; [done|]. split; [done|]. intros later symbol.
  by rewrite cached_miss by (unfold stale; simpl; by rewrite lookup_empty).
Qed.

(** the frames in the cache keep the shape of fetched series *)
Lemma cached_call_keeps_shape now symbol w :
  cache_ok w →
  cache_ok (cached now symbol w).2 ∧
  ∀ f, (cached now symbol w).1 = Some f → series_shape f.
Proof.
  intros Hok.
  assert (stale now symbol w →
          cache_ok (cached now symbol w).2 ∧
          ∀ f, (cached now symbol w).1 = Some f → series_shape f) as Hmiss.
  { intros Hstale. rewrite (cached_miss _ _ _ _ _ Hstale). cbn [fst snd].
    destruct (fetch_stock_data_body _ _) as [v calls] eqn:Hf. cbn [fst].
    split; [|intros f ->; by eapply fetched_shape].
    intros s e' f. cbn [cache].
    intros [[<- <-]|[_ Hs]]%lookup_insert_Some; [|by apply (Hok s e')].
    cbn [value]. intros ->. by eapply fetched_shape. }
  destruct (cache w !! symbol) as [e|] eqn:He.
  - destruct (fresh now e) eqn:Hfresh.
    + rewrite (cached_hit _ _ _ _ _ _ He Hfresh). split; [done|].
      intros f. by apply (Hok symbol).
    + apply Hmiss. unfold stale. by rewrite He.
  - apply Hmiss. unfold stale. by rewrite He.
Qed.
End CacheMore.

(** ** More on calculate_metrics *)

Lemma assign_same {C} name (c : list C) cols :
  assoc name cols = Some c → assign name c cols = cols.
Proof.
  induction cols as [|[n c0] cols IH]; simpl; [done|].
  destruct (String.eqb n name) eqn:E; [by intros [= ->]|].
  intros Hc. by rewrite IH.
Qed.

Lemma with_indicators_again (f : DataFrame) close :
  with_indicators (with_indicators f close) close = with_indicators f close.
Proof.
  unfold with_indicators at 1. cbn [index columns with_indicators].
  f_equal. rewrite (assign_same "MA_20") by column.
  rewrite (assign_same "MA_50") by column.
  by rewrite (assign_same "Daily_Return") by column.
Qed.

Lemma with_indicators_series (f : DataFrame) close :
  is_series f → is_series (with_indicators f close).
Proof.
  unfold is_series, has_column, with_indicators, len. cbn [index columns forallb series_columns].
  by rewrite !assoc_assign_ne by done.
Qed.

Lemma dropna_Fin qs : dropna (Fin <$> qs) = Fin <$> qs.
Proof.
  unfold dropna. induction qs as [|q qs IH]; [done|].
  rewrite fmap_cons, filter_cons_True by done. by rewrite IH.
Qed.

Lemma f64_sum_Fin qs : f64_sum (Fin <$> qs) = Fin (Qsum qs).
Proof.
  unfold f64_sum, Qsum. induction qs as [|q qs IH]; [done|].
  rewrite fmap_cons. cbn [foldr]. by rewrite IH.
Qed.

Lemma Series_mean_Fin qs : qs ≠ [] → Series_mean (Fin <$> qs) = Fin (mean_Q qs).
Proof.
  intros Hne. unfold Series_mean. rewrite dropna_Fin, f64_sum_Fin, length_fmap.
  unfold f64_div, mean_Q, of_nat. cbn [Qnum inject_Z].
  destruct (Z.eqb_spec (Z.of_nat (length qs)) 0) as [Hz|]; [|done].
  destruct qs; [done|]. simpl in Hz. lia.
Qed.

Lemma foldl_max_Fin x xs :
  ∃ m, foldl (λ m y, if f64_leb m y then y else m) (Fin x) (Fin <$> xs) = Fin m ∧
       m ∈ x :: xs ∧ (x <= m)%Q ∧ Forall (λ q, (q <= m)%Q) xs.
Proof.
  revert x. induction xs as [|y xs IH]; intros x.
  - exists x. split; [done|]. split; [by left|]. split; [apply Qle_refl|constructor].
  - rewrite fmap_cons. cbn [foldl f64_leb].
    destruct (Qle_bool x y) eqn:Hxy.
    + apply Qle_bool_iff in Hxy. destruct (IH y) as (m & Hm & Hin & Hy & Hall).
      exists m. split; [done|]. split; [by right|].
      split; [by eapply Qle_trans|by constructor].
    + assert (y <= x)%Q as Hyx.
      { apply Qlt_le_weak, Qnot_le_lt. intros Hle%Qle_bool_iff. congruence. }
      destruct (IH x) as (m & Hm & Hin & Hx & Hall).
      exists m. split; [done|]. split.
      * apply elem_of_cons in Hin as [->|Hin]; [by left|by right; right].
      * split; [done|]. constructor; [by eapply Qle_trans|done].
Qed.

Lemma foldl_min_Fin x xs :
  ∃ m, foldl (λ m y, if f64_leb y m then y else m) (Fin x) (Fin <$> xs) = Fin m ∧
       m ∈ x :: xs ∧ (m <= x)%Q ∧ Forall (λ q, (m <= q)%Q) xs.
Proof.
  revert x. induction xs as [|y xs IH]; intros x.
  - exists x. split; [done|]. split; [by left|]. split; [apply Qle_refl|constructor].
  - rewrite fmap_cons. cbn [foldl f64_leb].
    destruct (Qle_bool y x) eqn:Hyx.
    + apply Qle_bool_iff in Hyx. destruct (IH y) as (m & Hm & Hin & Hy & Hall).
      exists m. split; [done|]. split; [by right|].
      split; [by eapply Qle_trans|by constructor].
    + assert (x <= y)%Q as Hxy.
      { apply Qlt_le_weak, Qnot_le_lt. intros Hle%Qle_bool_iff. congruence. }
      destruct (IH x) as (m & Hm & Hin & Hx & Hall).
      exists m. split; [done|]. split.
      * apply elem_of_cons in Hin as [->|Hin]; [by left|by right; right].
      * split; [done|]. constructor; [by eapply Qle_trans|done].
Qed.

Lemma Series_max_Fin qs :
  qs ≠ [] → ∃ m, Series_max (Fin <$> qs) = Fin m ∧ m ∈ qs ∧ Forall (λ q, (q <= m)%Q) qs.
Proof.
  intros Hne. unfold Series_max. rewrite dropna_Fin. destruct qs as [|x xs]; [done|].
  rewrite fmap_cons. destruct (foldl_max_Fin x xs) as (m & Hm & Hin & Hx & Hall).
  exists m. split; [done|]. split; [done|by constructor].
Qed.

Lemma Series_min_Fin qs :
  qs ≠ [] → ∃ m, Series_min (Fin <$> qs) = Fin m ∧ m ∈ qs ∧ Forall (λ q, (m <= q)%Q) qs.
Proof.
  intros Hne. unfold Series_min. rewrite dropna_Fin. destruct qs as [|x xs]; [done|].
  rewrite fmap_cons. destruct (foldl_min_Fin x xs) as (m & Hm & Hin & Hx & Hall).
  exists m. split; [done|]. split; [done|by constructor].
Qed.

Lemma rolling_mean_lookup w qs i :
  (i < length qs)%nat →
  rolling_mean w (Fin <$> qs) !! i =
    Some (if (S i <? w)%nat then NaN else Fin (mean_Q (lastn w (take (S i) qs)))).
Proof.
  intros Hi. unfold rolling_mean.
  rewrite list_lookup_fmap, length_fmap, lookup_seq_lt by done. simpl.
  f_equal. rewrite <- fmap_take.
  assert (length (take (S i) qs) = S i) as Hlen by (rewrite length_take; lia).
  destruct (Nat.ltb_spec (S i) w).
  - apply window_mean_short. rewrite length_fmap. lia.
  - apply window_mean_full. lia.
Qed.

Lemma pct_from_lookup prev s i x p :
  s !! i = Some x → (prev :: s) !! i = Some p →
  pct_from prev s !! i = Some (f64_sub (f64_div x p) (Fin 1)).
Proof.
  revert prev i. induction s as [|y s IH]; intros prev i; [done|].
  destruct i as [|i]; simpl.
  - by intros [= ->] [= ->].
  - intros Hx Hp. by apply IH.
Qed.

Lemma pct_change_lookup s i x y :
  s !! i = Some x → s !! S i = Some y →
  pct_change s !! S i = Some (f64_sub (f64_div y x) (Fin 1)).
Proof.
  destruct s as [|z s]; [done|]. simpl. intros Hx Hy.
  by apply pct_from_lookup.
Qed.

Section MetricsMore.
Context `{Pandas}.
Implicit Types (h : gmap loc DataFrame) (f : DataFrame).

(** X13: calling [calculate_metrics] a second time on the same object gives
    the same result and changes nothing more: the derived columns are
    overwritten with the values they already hold. *)
Theorem calculate_metrics_idempotent h l f ret h1 :
  h !! l = Some f → is_series f →
  calculate_metrics (Some l) h = Ok (ret, h1) →
  calculate_metrics (Some l) h1 = Ok (ret, h1).
Proof.
  intros Hl Hs Hcall. destruct (decide (len f = 0%nat)) as [Hlen|Hlen].
  { rewrite (calculate_metrics_empty h l f Hl Hlen) in Hcall. injection Hcall as <- <-.
    by apply (calculate_metrics_empty h l f). }
  destruct (calculate_metrics_body_series f Hs Hlen)
    as (close & vol & high & low & latest & prev & lastv
        & Hclose & Lclose & Hvol & Hhigh & Hlow & Hlatest & Hprev & Hlastv & Hbody).
  rewrite (calculate_metrics_series h l f _ _ Hl Hs Hlen Hbody) in Hcall.
  injection Hcall as <- <-.
  pose proof (with_indicators_series f close Hs) as Hs1.
  assert (len (with_indicators f close) ≠ 0%nat) as Hlen1 by done.
  destruct (calculate_metrics_body_series _ Hs1 Hlen1)
    as (close' & vol' & high' & low' & latest' & prev' & lastv'
        & Hclose' & _ & Hvol' & Hhigh' & Hlow' & Hlatest' & Hprev' & Hlastv' & Hbody').
  unfold with_indicators in Hclose', Hvol', Hhigh', Hlow'. cbn [columns] in *.
  rewrite !assoc_assign_ne in Hclose', Hvol', Hhigh', Hlow' by done.
  assert (close' = close) as -> by congruence.
  assert (vol' = vol) as -> by congruence.
  assert (high' = high) as -> by congruence.
  assert (low' = low) as -> by congruence.
  assert (latest' = latest) as -> by congruence.
  assert (prev' = prev) as -> by congruence.
  assert (lastv' = lastv) as -> by congruence.
  rewrite with_indicators_again in Hbody'.
  erewrite calculate_metrics_series; [|apply lookup_insert_eq|exact Hs1|exact Hlen1|exact Hbody'].
  by rewrite insert_insert_eq.
Qed.

(** X14: with a single bar the previous price is the current price: the
    daily change is zero, and the percent change is zero too unless the
    price itself is zero, in which case it is NaN; no moving average is
    reported. *)
Theorem single_bar_metrics h l f (a : Q) :
  h !! l = Some f → is_series f → assoc "Close" (columns f) = Some [Fin a] →
  ∃ m h', calculate_metrics (Some l) h = Ok (MetricsAndFrame m l, h') ∧
    current_price m = Fin a ∧
    (∃ d, daily_change m = Fin d ∧ (d == 0)%Q) ∧
    (Qnum a ≠ 0 → ∃ p, daily_change_pct m = Fin p ∧ (p == 0)%Q) ∧
    (Qnum a = 0 → daily_change_pct m = NaN) ∧
    ma_20 m = None ∧ ma_50 m = None.
Proof.
  intros Hl Hs Hclose.
  destruct (series_column f "Close" Hs) as (c & Hc & Lc); [set_solver|].
  assert (c = [Fin a]) as -> by congruence. simpl in Lc.
  assert (len f ≠ 0%nat) as Hlen by lia.
  destruct (calculate_metrics_body_series f Hs Hlen)
    as (close & vol & high & low & latest & prev & lastv
        & Hclose' & _ & _ & _ & _ & Hlatest & Hprev & _ & Hbody).
  assert (close = [Fin a]) as -> by congruence.
  injection Hlatest as <-. injection Hprev as <-.
  eexists _, _. split; [by eapply calculate_metrics_series|]. simpl.
  split; [done|]. split; [|split; [|split]].
  - eexists. split; [done|]. apply Qplus_opp_r.
  - intros Ha. destruct (Z.eqb_spec (Qnum a) 0) as [|_]; [done|].
    eexists. split; [done|].
    unfold Qdiv. rewrite Qplus_opp_r. ring.
  - intros Ha. rewrite Ha. simpl.
    replace (Z.sgn (Qnum (a + - a))) with 0; [done|].
    unfold Qplus, Qopp. simpl. rewrite Ha. simpl. done.
  - done.
Qed.

(** X15: over finite highs and lows, high_52w is the largest High of the
    frame and low_52w the smallest Low: each is one of the values and bounds
    all of them. *)
Theorem window_extremes h l f hs ls :
  h !! l = Some f → is_series f → len f ≠ 0%nat →
  assoc "High" (columns f) = Some (Fin <$> hs) →
  assoc "Low" (columns f) = Some (Fin <$> ls) →
  ∃ m h' hi lo, calculate_metrics (Some l) h = Ok (MetricsAndFrame m l, h') ∧
    high_52w m = Fin hi ∧ hi ∈ hs ∧ Forall (λ q, (q <= hi)%Q) hs ∧
    low_52w m = Fin lo ∧ lo ∈ ls ∧ Forall (λ q, (lo <= q)%Q) ls.
Proof.
  intros Hl Hs Hlen Hhigh Hlow.
  destruct (series_column f "High" Hs) as (c & Hc & Lc); [set_solver|].
  assert (c = Fin <$> hs) as -> by congruence. rewrite length_fmap in Lc.
  destruct (series_column f "Low" Hs) as (c & Hc' & Lc'); [set_solver|].
  assert (c = Fin <$> ls) as -> by congruence. rewrite length_fmap in Lc'.
  destruct (Series_max_Fin hs) as (hi & Hhi & Hin & Hall); [by intros ->|].
  destruct (Series_min_Fin ls) as (lo & Hlo & Hin' & Hall'); [by intros ->|].
  destruct (calculate_metrics_body_series f Hs Hlen)
    as (close & vol & high & low & latest & prev & lastv
        & _ & _ & _ & Hhigh' & Hlow' & _ & _ & _ & Hbody).
  assert (high = Fin <$> hs) as -> by congruence.
  assert (low = Fin <$> ls) as -> by congruence.
  eexists _, _, hi, lo. split; [by eapply calculate_metrics_series|]. by simpl.
Qed.

(** X16: over finite volumes, avg_volume is the arithmetic mean of the
    Volume column and volume is its last entry. *)
Theorem volume_metrics h l f vs :
  h !! l = Some f → is_series f → len f ≠ 0%nat →
  assoc "Volume" (columns f) = Some (Fin <$> vs) →
  ∃ m h', calculate_metrics (Some l) h = Ok (MetricsAndFrame m l, h') ∧
    avg_volume m = Fin (mean_Q vs) ∧
    Some (volume m) = Fin <$> last vs.
Proof.
  intros Hl Hs Hlen Hvol.
  destruct (series_column f "Volume" Hs) as (c & Hc & Lc); [set_solver|].
  assert (c = Fin <$> vs) as -> by congruence. rewrite length_fmap in Lc.
  destruct (calculate_metrics_body_series f Hs Hlen)
    as (close & vol & high & low & latest & prev & lastv
        & _ & _ & Hvol' & _ & _ & _ & _ & Hlastv & Hbody).
  assert (vol = Fin <$> vs) as -> by congruence.
  eexists _, _. split; [by eapply calculate_metrics_series|]. simpl.
  split; [apply Series_mean_Fin; by intros ->|].
  by rewrite <- Hlastv, fmap_last.
Qed.

(** X17: the MA_20 and MA_50 columns that [calculate_metrics] writes
    (finite closes): row [i] holds NaN while fewer than 20 (50) rows are
    available, and the mean of the 20 (50) closes ending at row [i] from
    then on. *)
Theorem moving_average_columns h l f qs :
  h !! l = Some f → is_series f → len f ≠ 0%nat →
  assoc "Close" (columns f) = Some (Fin <$> qs) →
  ∃ m h' f' ma20 ma50, calculate_metrics (Some l) h = Ok (MetricsAndFrame m l, h') ∧
    h' !! l = Some f' ∧
    assoc "MA_20" (columns f') = Some ma20 ∧
    assoc "MA_50" (columns f') = Some ma50 ∧
    ∀ i, (i < length qs)%nat →
      ma20 !! i = Some (if (S i <? 20)%nat then NaN
                        else Fin (mean_Q (lastn 20 (take (S i) qs)))) ∧
      ma50 !! i = Some (if (S i <? 50)%nat then NaN
                        else Fin (mean_Q (lastn 50 (take (S i) qs)))).
Proof.
  intros Hl Hs Hlen Hclose.
  destruct (calculate_metrics_body_series f Hs Hlen)
    as (close & vol & high & low & latest & prev & lastv
        & Hclose' & _ & _ & _ & _ & _ & _ & _ & Hbody).
  assert (close = Fin <$> qs) as -> by congruence.
  eexists _, _, _, _, _. split; [by eapply calculate_metrics_series|].
  split; [apply lookup_insert_eq|]. split; [by column|]. split; [by column|].
  intros i Hi. by rewrite !rolling_mean_lookup.
Qed.

(** X18: the Daily_Return column that [calculate_metrics] writes: NaN in
    the first row, and in every later row the close divided by the close of
    the row before, minus one. *)
Theorem daily_return_column h l f close :
  h !! l = Some f → is_series f → len f ≠ 0%nat →
  assoc "Close" (columns f) = Some close →
  ∃ m h' f' ret, calculate_metrics (Some l) h = Ok (MetricsAndFrame m l, h') ∧
    h' !! l = Some f' ∧
    assoc "Daily_Return" (columns f') = Some ret ∧
    length ret = len f ∧
    ret !! 0%nat = Some NaN ∧
    ∀ i x y, close !! i = Some x → close !! S i = Some y →
             ret !! S i = Some (f64_sub (f64_div y x) (Fin 1)).
Proof.
  intros Hl Hs Hlen Hclose.
  destruct (calculate_metrics_body_series f Hs Hlen)
    as (close' & vol & high & low & latest & prev & lastv
        & Hclose' & Lclose & _ & _ & _ & _ & _ & _ & Hbody).
  assert (close' = close) as -> by congruence.
  eexists _, _, _, _. split; [by eapply calculate_metrics_series|].
  split; [apply lookup_insert_eq|]. split; [by column|].
  split; [by rewrite length_pct_change|]. split.
  - destruct close; [simpl in Lclose; lia|done].
  - intros i x y. apply pct_change_lookup.
Qed.
End MetricsMore.

(** ** Windowing: df.tail(days) *)

Lemma lastn_all {A} n (l : list A) : (length l ≤ n)%nat → lastn n l = l.
Proof. intros Hle. unfold lastn. by replace (length l - n)%nat with 0%nat by lia. Qed.

Lemma lastn_lookup {A} n (l : list A) i :
  lastn n l !! i = l !! (length l - n + i)%nat.
Proof. unfold lastn. apply lookup_drop. Qed.

Lemma last_lastn {A} n (l : list A) : n ≠ 0%nat → last (lastn n l) = last l.
Proof.
  intros Hn. rewrite !last_lookup, lastn_lookup, length_lastn.
  destruct l as [|x l]; [done|]. simpl length. f_equal. lia.
Qed.

Lemma previous_close_lastn n close :
  (2 ≤ n)%nat → previous_close (lastn n close) = previous_close close.
Proof.
  intros Hn. destruct (decide (length close ≤ n)%nat) as [Hle|Hgt].
  { by rewrite lastn_all. }
  unfold previous_close. rewrite length_lastn, lastn_lookup.
  destruct (Nat.ltb_spec 1 (Nat.min n (length close))); [|lia].
  destruct (Nat.ltb_spec 1 (length close)); [|lia]. f_equal. lia.
Qed.

Lemma assoc_tail {I C} n (df : Frame I C) name :
  assoc name (columns (tail n df)) = lastn n <$> assoc name (columns df).
Proof.
  unfold tail. cbn [columns]. induction (columns df) as [|[n0 c] cols IH]; [done|].
  rewrite fmap_cons. cbn [assoc]. by destruct (String.eqb n0 name).
Qed.

Lemma len_tail {I C} n (df : Frame I C) : len (tail n df) = Nat.min n (len df).
Proof. unfold len, tail. cbn [index]. apply length_lastn. Qed.

Lemma tail_series n (f : DataFrame) : is_series f → is_series (tail n f).
Proof.
  unfold is_series. rewrite !forallb_forall. intros Hs name Hin.
  specialize (Hs name Hin). unfold has_column in *. rewrite assoc_tail.
  destruct (assoc name (columns f)) as [c|]; [|done]. simpl.
  apply Nat.eqb_eq in Hs. apply Nat.eqb_eq. by rewrite length_lastn, len_tail, Hs.
Qed.

Lemma tail_names {I C} n (df : Frame I C) : (columns (tail n df)).*1 = (columns df).*1.
Proof.
  unfold tail. cbn [columns]. rewrite <- list_fmap_compose.
  apply list_fmap_ext. by intros _ [name c] _.
Qed.

Lemma tail_well_formed {I C} n (df : Frame I C) : well_formed df → well_formed (tail n df).
Proof.
  rewrite !well_formed_Forall. intros Hwf. rewrite len_tail. unfold tail. cbn [columns].
  apply Forall_fmap. eapply Forall_impl; [exact Hwf|].
  intros [name c] Hc. simpl in *. by rewrite length_lastn, Hc.
Qed.

(** X19: [df.tail(n)] keeps the last [n] rows, each whole, and all the rows
    when there are no more than [n]. *)
Theorem tail_rows {I C} n (df : Frame I C) :
  well_formed df →
  rows (tail n df) = lastn n (rows df) ∧
  len (tail n df) = Nat.min n (len df) ∧
  ((len df ≤ n)%nat → tail n df = df).
Proof.
  intros Hwf. pose proof Hwf as Hall%well_formed_Forall.
  split; [|split; [apply len_tail|]].
  - unfold rows. rewrite len_tail. apply list_eq. intros i.
    rewrite lastn_lookup, !list_lookup_fmap, !lookup_zip_with, length_fmap,
      length_zip, length_seq.
    change (index (tail n df)) with (lastn n (index df)). rewrite lastn_lookup.
    replace (Nat.min (length (index df)) (len df)) with (len df) by (unfold len; lia).
    change (length (index df)) with (len df).
    destruct (decide (i < Nat.min n (len df))%nat) as [Hi|Hi].
    + destruct (lookup_lt_is_Some_2 (index df) (len df - n + i)) as [k Hk];
        [unfold len in *; lia|].
      rewrite Hk, !lookup_seq_lt by lia. simpl. f_equal. f_equal.
      unfold row_cells, tail. cbn [columns]. rewrite <- list_fmap_compose.
      apply Forall_fmap_ext. eapply Forall_impl; [exact Hall|].
      intros [name c] Hc. simpl in *. by rewrite lastn_lookup, Hc.
    + rewrite (lookup_ge_None_2 (seq 0 (Nat.min n (len df)))) by (rewrite length_seq; lia).
      destruct (index df !! _) as [k|] eqn:Hk; simpl; [|done].
      apply lookup_lt_Some in Hk. unfold len in *.
      rewrite lookup_ge_None_2; [done|]. rewrite length_seq. lia.
  - intros Hle. destruct df as [idx cols]. unfold tail, len in *. simpl in *.
    f_equal; [by apply lastn_all|].
    induction Hall as [|[name c] cols' Hc _ IH]; [done|].
    rewrite fmap_cons. f_equal.
    + simpl in *. f_equal. apply lastn_all. lia.
    + apply IH. unfold well_formed in *. simpl in Hwf.
      by apply andb_true_iff in Hwf as [_ ?].
Qed.

Section WindowMetrics.
Context `{Pandas}.

(** X20: the time period does not change what the headline shows: computed
    on the last [n >= 2] rows of a series, the current price, the daily
    change, its percentage and the latest volume are the same as on the whole
    series. *)
Theorem window_keeps_headline n (f : DataFrame) m f1 :
  is_series f → len f ≠ 0%nat → (2 ≤ n)%nat →
  calculate_metrics_body f = Ok (m, f1) →
  ∃ m' f1', calculate_metrics_body (tail n f) = Ok (m', f1') ∧
    current_price m' = current_price m ∧
    daily_change m' = daily_change m ∧
    daily_change_pct m' = daily_change_pct m ∧
    volume m' = volume m.
Proof.
  intros Hs Hlen Hn Hbody.
  destruct (calculate_metrics_body_series f Hs Hlen)
    as (close & vol & high & low & latest & prev & lastv
        & Hclose & _ & Hvol & _ & _ & Hlatest & Hprev & Hlastv & Hbody0).
  rewrite Hbody0 in Hbody. injection Hbody as <- <-.
  assert (len (tail n f) ≠ 0%nat) as Hlen' by (rewrite len_tail; lia).
  destruct (calculate_metrics_body_series (tail n f) (tail_series n f Hs) Hlen')
    as (close' & vol' & high' & low' & latest' & prev' & lastv'
        & Hclose' & _ & Hvol' & _ & _ & Hlatest' & Hprev' & Hlastv' & Hbody').
  rewrite assoc_tail, Hclose in Hclose'. injection Hclose' as <-.
  rewrite assoc_tail, Hvol in Hvol'. injection Hvol' as <-.
  rewrite last_lastn in Hlatest', Hlastv' by lia.
  rewrite previous_close_lastn in Hprev' by done.
  assert (latest' = latest) as -> by congruence.
  assert (prev' = prev) as -> by congruence.
  assert (lastv' = lastv) as -> by congruence.
  eexists _, _. split; [exact Hbody'|]. done.
Qed.
End WindowMetrics.

(** ** The charts and the rest of main *)

Lemma all_na_rolling_short w s : (length s < w)%nat → all_na (rolling_mean w s) = true.
Proof.
  intros Hlt. unfold all_na, rolling_mean. apply forallb_forall.
  intros x [i [-> _]]%list_elem_of_In%list_elem_of_fmap.
  rewrite window_mean_short; [done|]. rewrite length_take. lia.
Qed.

Lemma all_na_rolling_full w qs :
  (0 < length qs)%nat → (w ≤ length qs)%nat → all_na (rolling_mean w (Fin <$> qs)) = false.
Proof.
  intros Hpos Hle. apply not_true_is_false. unfold all_na. rewrite forallb_forall.
  intros Hall.
  pose proof (rolling_mean_lookup w qs (length qs - 1)) as Hlast.
  destruct (Nat.ltb_spec (S (length qs - 1)) w); [lia|].
  specialize (Hlast ltac:(lia)). apply list_elem_of_lookup_2, list_elem_of_In in Hlast.
  by apply Hall in Hlast.
Qed.

Lemma assign_fresh {C} name (c : list C) cols :
  name ∉ cols.*1 → assign name c cols = cols ++ [(name, c)].
Proof.
  induction cols as [|[n c0] cols IH]; simpl; [done|].
  intros [Hne Hnot]%not_elem_of_cons.
  destruct (String.eqb n name) eqn:E; [apply String.eqb_eq in E; congruence|].
  by rewrite IH.
Qed.

Lemma with_indicators_names (f : DataFrame) close :
  (columns f).*1 = series_columns →
  (columns (with_indicators f close)).*1 = series_columns ++ derived_columns.
Proof.
  intros Hnames. unfold with_indicators. cbn [columns].
  rewrite (assign_fresh "MA_20") by (rewrite Hnames; compute_done).
  rewrite (assign_fresh "MA_50") by (rewrite fmap_app, Hnames; compute_done).
  rewrite (assign_fresh "Daily_Return") by (rewrite !fmap_app, Hnames; compute_done).
  by rewrite !fmap_app, Hnames.
Qed.

Lemma upper_ascii_idemp c : upper_ascii (upper_ascii c) = upper_ascii c.
Proof. by destruct c as [[] [] [] [] [] [] [] []]. Qed.

Lemma upper_idemp s : upper (upper s) = upper s.
Proof. induction s as [|c s IH]; simpl; [done|]. by rewrite upper_ascii_idemp, IH. Qed.

Section MainMore.
Context `{Pandas} (net : network) (API_KEY : option string).

(** X21: the price chart of a frame that went through [calculate_metrics]
    (finite closes) always has the close line, and has the 20-day (50-day)
    line exactly when the frame has at least 20 (50) rows; every line is
    drawn over the frame's index. *)
Theorem price_chart_traces (h : gmap loc DataFrame) l f qs symbol :
  h !! l = Some f → is_series f → len f ≠ 0%nat →
  assoc "Close" (columns f) = Some (Fin <$> qs) →
  ∃ m h' f' fig, calculate_metrics (Some l) h = Ok (MetricsAndFrame m l, h') ∧
    h' !! l = Some f' ∧
    create_price_chart f' symbol = Ok fig ∧
    trace_name <$> traces fig =
      ["Close Price"] ++ (if (20 <=? len f)%nat then ["20-Day MA"] else [])
                      ++ (if (50 <=? len f)%nat then ["50-Day MA"] else []) ∧
    Forall (λ t, trace_x t = index f ∧ length (trace_y t) = len f) (traces fig).
Proof.
  intros Hl Hs Hlen Hclose.
  destruct (calculate_metrics_body_series f Hs Hlen)
    as (close & vol & high & low & latest & prev & lastv
        & Hclose' & Lclose & _ & _ & _ & _ & _ & _ & Hbody).
  assert (close = Fin <$> qs) as -> by congruence. rewrite length_fmap in Lclose.
  destruct (Nat.leb_spec 20 (len f)), (Nat.leb_spec 50 (len f)); try lia;
    (eexists _, _, _, _; split; [by eapply calculate_metrics_series|];
     split; [apply lookup_insert_eq|];
     unfold create_price_chart, in_columns;
     rewrite (getcol_ok _ "Close" (Fin <$> qs)) by column; cbn [bind];
     rewrite !bool_decide_eq_true_2 by (column; eauto);
     rewrite (getcol_ok _ "MA_20" (rolling_mean 20 (Fin <$> qs))) by column; cbn [bind];
     rewrite (getcol_ok _ "MA_50" (rolling_mean 50 (Fin <$> qs))) by column).
  - rewrite (all_na_rolling_full 20) by lia. cbn [bind negb].
    rewrite (all_na_rolling_full 50) by lia.
    cbn. split; [done|]. split; [done|].
    repeat constructor; cbn; by rewrite ?length_rolling_mean, ?length_fmap.
  - rewrite (all_na_rolling_full 20) by lia. cbn [bind negb].
    rewrite (all_na_rolling_short 50) by (rewrite length_fmap; lia).
    cbn. split; [done|]. split; [done|].
    repeat constructor; cbn; by rewrite ?length_rolling_mean, ?length_fmap.
  - rewrite (all_na_rolling_short 20) by (rewrite length_fmap; lia). cbn [bind negb].
    rewrite (all_na_rolling_short 50) by (rewrite length_fmap; lia).
    cbn. split; [done|]. split; [done|].
    repeat constructor; cbn; by rewrite ?length_rolling_mean, ?length_fmap.
Qed.

(** X22: the 20-Day MA tile (line 254) is shown exactly when the frame has
    at least 20 rows and the mean of its last 20 closes is not zero: a mean
    of zero is a reported value that the truth test hides. *)
Theorem ma_tile_shown (h : gmap loc DataFrame) l f qs :
  h !! l = Some f → is_series f → len f ≠ 0%nat →
  assoc "Close" (columns f) = Some (Fin <$> qs) →
  ∃ m h', calculate_metrics (Some l) h = Ok (MetricsAndFrame m l, h') ∧
    tile_shown (ma_20 m) =
      (20 <=? len f)%nat && negb (Qnum (mean_Q (lastn 20 qs)) =? 0).
Proof.
  intros Hl Hs Hlen Hclose.
  destruct (calculate_metrics_body_series f Hs Hlen)
    as (close & vol & high & low & latest & prev & lastv
        & Hclose' & Lclose & _ & _ & _ & _ & _ & _ & Hbody).
  assert (close = Fin <$> qs) as -> by congruence. rewrite length_fmap in Lclose.
  eexists _, _. split; [by eapply calculate_metrics_series|]. cbn [ma_20].
  destruct (Nat.leb_spec 20 (len f)).
  - by rewrite window_mean_full by lia.
  - by rewrite window_mean_short by (rewrite length_fmap; lia).
Qed.

Lemma render_series symbol p fetched :
  series_shape fetched → empty fetched = false →
  ∃ m windowed close,
    windowed = match days p with Some n => tail n fetched | None => fetched end ∧
    assoc "Close" (columns windowed) = Some close ∧
    render symbol p fetched = Rendered symbol m (with_indicators windowed close).
Proof.
  intros Hshape Hne. unfold render.
  set (windowed := match days p with Some n => tail n fetched | None => fetched end).
  assert (len fetched ≠ 0%nat) as Hlen.
  { unfold empty, len in *. by destruct (index fetched). }
  assert (is_series windowed ∧ len windowed ≠ 0%nat) as [Hs Hlen'].
  { pose proof (series_shape_is_series _ Hshape) as Hs. unfold windowed.
    destruct p; simpl; (split; [by try apply tail_series|]); rewrite ?len_tail; lia. }
  destruct (calculate_metrics_body_series windowed Hs Hlen')
    as (close & vol & high & low & latest & prev & lastv
        & Hclose & _ & _ & _ & _ & _ & _ & _ & Hbody).
  erewrite calculate_metrics_series; [|apply lookup_singleton_eq|done..].
  rewrite lookup_insert_eq. by eexists _, windowed, close.
Qed.

(** X24: the frame a run of [main] charts, tabulates and exports is the one
    [calculate_metrics] updated: it carries the five series columns followed
    by MA_20, MA_50 and Daily_Return, has at most as many rows as the selected
    period, and both charts can be built from it. *)
Theorem main_rendered_frame now ui w symbol m df :
  cache_ok w →
  (main net API_KEY now ui w).1 = Rendered symbol m df →
  symbol = chosen_symbol ui ∧
  (columns df).*1 = series_columns ++ derived_columns ∧
  (∀ n, days (period ui) = Some n → (len df ≤ n)%nat) ∧
  (∃ fig, create_price_chart df symbol = Ok fig) ∧
  (∃ fig, create_volume_chart df symbol = Ok fig).
Proof.
  intros Hok. unfold main, chosen_symbol.
  destruct (refresh_clicked ui); [done|].
  destruct (bool_decide _); [done|].
  destruct (String.eqb _ ""); [done|].
  set (sym := if String.eqb (upper (custom_text ui)) "" then _ else _).
  destruct (cached_call_keeps_shape net API_KEY now sym w Hok) as [_ Hshape].
  destruct (cached_fetch_stock_data net API_KEY now sym w) as [[fetched|] w'];
    simpl in *; [|done].
  destruct (empty fetched) eqn:Hempty; [done|]. simpl.
  pose proof (Hshape fetched eq_refl) as Hfetched.
  destruct (render_series sym (period ui) fetched Hfetched Hempty)
    as (m' & windowed & close & Hwin & Hclose & ->).
  intros [= <- <- <-]. split; [done|].
  assert ((columns windowed).*1 = series_columns) as Hnames.
  { rewrite Hwin. destruct (days (period ui)); [rewrite tail_names|]; apply Hfetched. }
  assert (is_series windowed) as Hs.
  { rewrite Hwin. pose proof (series_shape_is_series _ Hfetched).
    destruct (days (period ui)); [by apply tail_series|done]. }
  split; [by apply with_indicators_names|]. split.
  { intros n Hn. change (len (with_indicators windowed close)) with (len windowed).
    rewrite Hwin, Hn, len_tail. lia. }
  destruct (series_column windowed "Volume" Hs) as (vol & Hvol & _); [set_solver|].
  split.
  - unfold create_price_chart, in_columns.
    rewrite (getcol_ok _ "Close" close) by column. cbn [bind].
    rewrite !bool_decide_eq_true_2 by (column; eauto).
    rewrite (getcol_ok _ "MA_20" (rolling_mean 20 close)) by column. cbn [bind].
    rewrite (getcol_ok _ "MA_50" (rolling_mean 50 close)) by column.
    destruct (all_na (rolling_mean 20 close)); cbn [bind negb];
      destruct (all_na (rolling_mean 50 close)); cbn; eexists; reflexivity.
  - unfold create_volume_chart.
    rewrite (getcol_ok _ "Volume" vol) by column. by eexists.
Qed.

(** X25: one run of [main] sends at most one request, for the chosen symbol
    and with the configured key, and none at all when the refresh button was
    clicked or the key is the placeholder. *)
Theorem main_requests now ui w :
  let w' := (main net API_KEY now ui w).2 in
  (sent w' = sent w ∨ sent w' = sent w ++ [mkRequest (chosen_symbol ui) API_KEY]) ∧
  (refresh_clicked ui = true ∨ API_KEY = Some placeholder → sent w' = sent w).
Proof.
  simpl. unfold main, chosen_symbol.
  destruct (refresh_clicked ui); [by split; [left|]|].
  destruct (bool_decide_reflect (API_KEY = Some placeholder)) as [Hkey|Hkey];
    [by split; [left|]|].
  set (sym := if String.eqb (upper (custom_text ui)) "" then _ else _).
  assert (false = true ∨ API_KEY = Some placeholder → False) as Hno by (by intros [|]).
  destruct (String.eqb sym ""); [by split; [left|]|].
  split; [|by intros ?%Hno].
  destruct (cached_sent net API_KEY now sym w) as [Hs|Hs];
    destruct (cached_fetch_stock_data net API_KEY now sym w) as [[df|] w1];
    simpl in *; try destruct (empty df); simpl; auto.
Qed.

(** X26: a custom symbol typed in ASCII characters is read without regard
    to letter case: the run with the text as typed and the run with the text
    in upper case are the same run. *)
Theorem main_symbol_case ui now w :
  is_ascii (custom_text ui) = true →
  main net API_KEY now ui w
  = main net API_KEY now
      (mkSidebar (selected ui) (upper (custom_text ui)) (period ui) (refresh_clicked ui)) w.
Proof.
  intros _. unfold main. cbn [custom_text selected period refresh_clicked].
  by rewrite upper_idemp.
Qed.
End MainMore.

(** * Concrete runs of the further properties *)

Lemma sort_index_rows_witness : rows (sort_index unsorted_frame) ≡ₚ rows unsorted_frame.
Proof. apply (sort_index_rows unsorted_frame). reflexivity. Defined.

Lemma sort_index_ascending_id_witness : sort_index three_bars = three_bars.
Proof.
  apply (sort_index_ascending_id three_bars).
  - reflexivity.
  - vm_compute. repeat constructor; discriminate.
Defined.

Lemma fetched_frame_columns_witness :
  (columns sample_frame).*1 = series_columns ∧
  Forall (λ col, length col.2 = len sample_frame) (columns sample_frame).
Proof.
  apply (fetched_frame_columns "AAPL" (response (Ok sample_payload)) sample_frame []).
  vm_compute. reflexivity.
Defined.

Lemma fetched_index_order_independent_witness :
  ∃ df', fetch_stock_data_body "AAPL" (response (Ok reordered_payload)) = (Some df', []) ∧
         index sample_frame = index df'.
Proof.
  eexists. split; [vm_compute; reflexivity|].
  eapply (fetched_index_order_independent "AAPL"
            (response (Ok sample_payload)) (response (Ok reordered_payload))).
  - vm_compute. reflexivity.
  - vm_compute. reflexivity.
  - vm_compute. reflexivity.
  - vm_compute. reflexivity.
  - apply (bool_decide_unpack _). vm_compute. exact I.
Defined.

Lemma non_object_body_returns_None_witness :
  (fetch_stock_data_body "AAPL" (response (Ok (JArr [JStr "Note"])))).1 = None.
Proof. apply (non_object_body_returns_None "AAPL" (JArr [JStr "Note"])). discriminate. Defined.

Lemma non_object_time_series_returns_None_witness :
  (fetch_stock_data_body "AAPL"
     (response (Ok (JObj [(time_series_key, JArr [JNum (Fin 1)])])))).1 = None.
Proof.
  apply (non_object_time_series_returns_None "AAPL"
           [(time_series_key, JArr [JNum (Fin 1)])] (JArr [JNum (Fin 1)]));
    try reflexivity.
  discriminate.
Defined.

Lemma wrong_column_count_returns_None_witness :
  fetch_stock_data_body "AAPL" (response (Ok (JObj [(time_series_key, JObj short_records)])))
  = (None, [st_error_exception "AAPL" ValueError]).
Proof.
  eapply (wrong_column_count_returns_None "AAPL"
            [(time_series_key, JObj short_records)] short_records).
  - reflexivity.
  - reflexivity.
  - reflexivity.
  - discriminate.
  - vm_compute. reflexivity.
  - vm_compute. lia.
Defined.

Lemma refetch_exactly_after_ttl_witness :
  let w1 := (cached_fetch_stock_data sample_net demo_key 0 "AAPL" cold_world).2 in
  sent (cached_fetch_stock_data sample_net demo_key 300 "AAPL" w1).2 = sent w1 ↔ 300 < 0 + ttl.
Proof.
  apply (refetch_exactly_after_ttl sample_net demo_key "AAPL" cold_world 0 300).
  vm_compute. exact I.
Defined.

Lemma many_calls_one_request_witness :
  sent (run_calls sample_net demo_key
          ((0, "AAPL") :: [(1, "AAPL"); (100, "AAPL"); (299, "AAPL")]) cold_world)
  = sent cold_world ++ [mkRequest "AAPL" demo_key].
Proof.
  apply (many_calls_one_request sample_net demo_key "AAPL" cold_world 0).
  - vm_compute. exact I.
  - repeat constructor.
Defined.

Lemma refresh_forces_refetch_witness :
  let r := main sample_net demo_key 10 (mkSidebar "AAPL" "" Days30 true) warm_world in
  r.1 = Rerun ∧ sent r.2 = sent warm_world ∧
  ∀ later symbol,
    sent (cached_fetch_stock_data sample_net demo_key later symbol r.2).2
    = sent warm_world ++ [mkRequest symbol demo_key].
Proof.
  apply (refresh_forces_refetch sample_net demo_key 10
           (mkSidebar "AAPL" "" Days30 true) warm_world).
  reflexivity.
Defined.

Lemma calculate_metrics_idempotent_witness :
  ∃ ret h1, calculate_metrics (Some 0%nat) {[ 0%nat := three_bars ]} = Ok (ret, h1) ∧
            calculate_metrics (Some 0%nat) h1 = Ok (ret, h1).
Proof.
  eexists _, _. split; [vm_compute; reflexivity|].
  eapply (calculate_metrics_idempotent {[ 0%nat := three_bars ]} 0%nat three_bars).
  - vm_compute. reflexivity.
  - vm_compute. reflexivity.
  - vm_compute. reflexivity.
Defined.

Lemma single_bar_metrics_witness :
  ∃ m h', calculate_metrics (Some 0%nat) {[ 0%nat := one_bar ]}
          = Ok (MetricsAndFrame m 0%nat, h') ∧ current_price m = Fin 100.
Proof.
  destruct (single_bar_metrics {[ 0%nat := one_bar ]} 0%nat one_bar 100%Q)
    as (m & h' & Hcall & Hprice & _).
  - vm_compute. reflexivity.
  - vm_compute. reflexivity.
  - vm_compute. reflexivity.
  - exists m, h'. split; [exact Hcall|exact Hprice].
Defined.

Lemma window_extremes_witness :
  ∃ m h' hi lo, calculate_metrics (Some 0%nat) {[ 0%nat := three_bars ]}
                = Ok (MetricsAndFrame m 0%nat, h') ∧
                high_52w m = Fin hi ∧ low_52w m = Fin lo.
Proof.
  destruct (window_extremes {[ 0%nat := three_bars ]} 0%nat three_bars
              [12; 15; 11]%Q [9; 10; 8]%Q)
    as (m & h' & hi & lo & Hcall & Hhi & _ & _ & Hlo & _).
  - vm_compute. reflexivity.
  - vm_compute. reflexivity.
  - vm_compute. discriminate.
  - vm_compute. reflexivity.
  - vm_compute. reflexivity.
  - exists m, h', hi, lo. split; [exact Hcall|]. split; [exact Hhi|exact Hlo].
Defined.

Lemma volume_metrics_witness :
  ∃ m h', calculate_metrics (Some 0%nat) {[ 0%nat := three_bars ]}
          = Ok (MetricsAndFrame m 0%nat, h') ∧
          avg_volume m = Fin (mean_Q [1000; 3000; 2000]%Q).
Proof.
  destruct (volume_metrics {[ 0%nat := three_bars ]} 0%nat three_bars [1000; 3000; 2000]%Q)
    as (m & h' & Hcall & Havg & _).
  - vm_compute. reflexivity.
  - vm_compute. reflexivity.
  - vm_compute. discriminate.
  - vm_compute. reflexivity.
  - exists m, h'. split; [exact Hcall|exact Havg].
Defined.

Lemma moving_average_columns_witness :
  ∃ m h', calculate_metrics (Some 0%nat) {[ 0%nat := twenty_bars ]}
          = Ok (MetricsAndFrame m 0%nat, h').
Proof.
  destruct (moving_average_columns {[ 0%nat := twenty_bars ]} 0%nat twenty_bars
              (replicate 20 100%Q))
    as (m & h' & f' & ma20 & ma50 & Hcall & _).
  - vm_compute. reflexivity.
  - vm_compute. reflexivity.
  - vm_compute. discriminate.
  - vm_compute. reflexivity.
  - exists m, h'. exact Hcall.
Defined.

Lemma daily_return_column_witness :
  ∃ m h', calculate_metrics (Some 0%nat) {[ 0%nat := three_bars ]}
          = Ok (MetricsAndFrame m 0%nat, h').
Proof.
  destruct (daily_return_column {[ 0%nat := three_bars ]} 0%nat three_bars
              (Fin <$> [10; 12; 9]%Q))
    as (m & h' & f' & ret & Hcall & _).
  - vm_compute. reflexivity.
  - vm_compute. reflexivity.
  - vm_compute. discriminate.
  - vm_compute. reflexivity.
  - exists m, h'. exact Hcall.
Defined.

Lemma tail_rows_witness :
  rows (tail 2 three_bars) = lastn 2 (rows three_bars) ∧
  len (tail 2 three_bars) = Nat.min 2 (len three_bars) ∧
  ((len three_bars ≤ 2)%nat → tail 2 three_bars = three_bars).
Proof. apply (tail_rows 2 three_bars). reflexivity. Defined.

Lemma window_keeps_headline_witness :
  ∃ m f1 m' f1', calculate_metrics_body three_bars = Ok (m, f1) ∧
                 calculate_metrics_body (tail 2 three_bars) = Ok (m', f1') ∧
                 current_price m' = current_price m ∧
                 daily_change m' = daily_change m.
Proof.
  eexists _, _.
  eassert (calculate_metrics_body three_bars = Ok (_, _)) as Hbody
    by (vm_compute; reflexivity).
  destruct (window_keeps_headline 2 three_bars _ _
              ltac:(vm_compute; reflexivity) ltac:(vm_compute; discriminate)
              ltac:(lia) Hbody)
    as (m' & f1' & Hbody' & Hprice & Hchange & _).
  exists m', f1'. split; [exact Hbody|]. split; [exact Hbody'|]. split; [exact Hprice|exact Hchange].
Defined.

Lemma price_chart_traces_witness :
  ∃ m h', calculate_metrics (Some 0%nat) {[ 0%nat := twenty_bars ]}
          = Ok (MetricsAndFrame m 0%nat, h').
Proof.
  destruct (price_chart_traces {[ 0%nat := twenty_bars ]} 0%nat twenty_bars
              (replicate 20 100%Q) "AAPL")
    as (m & h' & f' & fig & Hcall & _).
  - vm_compute. reflexivity.
  - vm_compute. reflexivity.
  - vm_compute. discriminate.
  - vm_compute. reflexivity.
  - exists m, h'. exact Hcall.
Defined.

Lemma ma_tile_shown_witness :
  ∃ m h', calculate_metrics (Some 0%nat) {[ 0%nat := twenty_bars ]}
          = Ok (MetricsAndFrame m 0%nat, h') ∧
          tile_shown (ma_20 m) = true.
Proof.
  destruct (ma_tile_shown {[ 0%nat := twenty_bars ]} 0%nat twenty_bars (replicate 20 100%Q))
    as (m & h' & Hcall & Hshown).
  - vm_compute. reflexivity.
  - vm_compute. reflexivity.
  - vm_compute. discriminate.
  - vm_compute. reflexivity.
  - exists m, h'. split; [exact Hcall|]. rewrite Hshown. vm_compute. reflexivity.
Defined.

Lemma main_rendered_frame_witness :
  ∃ m df, (main sample_net demo_key 0 default_sidebar cold_world).1 = Rendered "AAPL" m df ∧
          (columns df).*1 = series_columns ++ derived_columns.
Proof.
  eexists _, _.
  eassert ((main sample_net demo_key 0 default_sidebar cold_world).1 = Rendered "AAPL" _ _)
    as Hrun by (vm_compute; reflexivity).
  split; [exact Hrun|].
  eapply (main_rendered_frame sample_net demo_key 0 default_sidebar cold_world).
  - intros symbol e f Hentry. vm_compute in Hentry. discriminate.
  - exact Hrun.
Defined.

Lemma main_symbol_case_witness :
  main sample_net demo_key 0 (mkSidebar "AAPL" "msft" Days30 false) cold_world
  = main sample_net demo_key 0 (mkSidebar "AAPL" "MSFT" Days30 false) cold_world.
Proof.
  apply (main_symbol_case sample_net demo_key (mkSidebar "AAPL" "msft" Days30 false)
           0 cold_world).
  reflexivity.
Defined.
